(** * mcresources: resource identifier parsing and shape normalisation

    A shallow embedding of [mcresources/utils.py].  The functions of that
    module dispatch on the runtime type of loosely typed input (a string, a
    sequence, a mapping, [None], ...), so the embedding works over a small
    universe of Python values, and every function that can raise returns in
    an error monad. *)

From Stdlib Require Import List String Ascii ZArith Bool Arith Lia.
From Stdlib Require Import DecimalString.
From Stdlib Require DecimalNat Finite.
Import ListNotations.
Local Open Scope string_scope.
Local Open Scope list_scope.

(** ** Python values *)

Module Py.

(** The values the normalisers see.  [PList] stands for any plain list or
    tuple; [PResLoc] is the named tuple
    [ResourceLocation = namedtuple('ResourceLocation', ('domain', 'path'))],
    which is a tuple and hence a [Sequence] of its two fields.  A mapping
    keeps its insertion order, as Python's [dict] does. *)
Unset Elimination Schemes.
Inductive pyval : Type :=
| PNone : pyval
| PBool : bool -> pyval
| PInt : Z -> pyval
| PStr : string -> pyval
| PList : list pyval -> pyval
| PResLoc : pyval -> pyval -> pyval
| PDict : list (string * pyval) -> pyval.
Set Elimination Schemes.

Definition dict := list (string * pyval).

(** Induction over values, with the hypothesis available for every element
    of a list and every value of a mapping. *)
Section PyvalInd.
Variable P : pyval -> Prop.
Hypothesis HNone : P PNone.
Hypothesis HBool : forall b, P (PBool b).
Hypothesis HInt : forall z, P (PInt z).
Hypothesis HStr : forall s, P (PStr s).
Hypothesis HList : forall l, Forall P l -> P (PList l).
Hypothesis HResLoc : forall d p, P d -> P p -> P (PResLoc d p).
Hypothesis HDict : forall d, Forall (fun kv => P (snd kv)) d -> P (PDict d).

Fixpoint pyval_ind (v : pyval) : P v :=
  match v with
  | PNone => HNone
  | PBool b => HBool b
  | PInt z => HInt z
  | PStr s => HStr s
  | PList l =>
      HList l ((fix elems (l : list pyval) : Forall P l :=
                  match l with
                  | [] => Forall_nil _
                  | x :: r => Forall_cons x (pyval_ind x) (elems r)
                  end) l)
  | PResLoc d p => HResLoc d p (pyval_ind d) (pyval_ind p)
  | PDict d =>
      HDict d ((fix items (d : dict) : Forall (fun kv => P (snd kv)) d :=
                  match d with
                  | [] => Forall_nil _
                  | kv :: r => Forall_cons kv (pyval_ind (snd kv)) (items r)
                  end) d)
  end.
End PyvalInd.

(** [isinstance(v, str)], [isinstance(v, Dict)], [isinstance(v, Sequence)]
    and [isinstance(v, ResourceLocation)].  A [str] is a [Sequence] too. *)
Definition is_str (v : pyval) : bool :=
  match v with PStr _ => true | _ => false end.

Definition is_dict (v : pyval) : bool :=
  match v with PDict _ => true | _ => false end.

Definition is_Sequence (v : pyval) : bool :=
  match v with PStr _ | PList _ | PResLoc _ _ => true | _ => false end.

Definition is_ResourceLocation (v : pyval) : bool :=
  match v with PResLoc _ _ => true | _ => false end.

(** ** Exceptions *)

(** What the module raises.  The text of
    [RuntimeError('Unknown object %s at f' % str(x))] is kept as its two
    parts: the offending value and the name of the function. *)
Inductive exn : Type :=
| ArityError : exn          (* RuntimeError('Must take one or two arguments: ...') *)
| UnknownObject : pyval -> string -> exn
| ItemStackArity : exn      (* RuntimeError('An item stack as a sequence must have two entries ...') *)
| NonePassed : exn          (* ValueError('None passed to `del_none`, ...') *)
| SubstringNotFound : exn   (* ValueError of str.index *)
| TypeError : exn
| IndexError : exn
| KeyError : exn.

Inductive result (A : Type) : Type :=
| Ok : A -> result A
| Raise : exn -> result A.
Arguments Ok {A} _.
Arguments Raise {A} _.

Definition bind {A B} (m : result A) (k : A -> result B) : result B :=
  match m with
  | Ok a => k a
  | Raise e => Raise e
  end.

Notation "x <- m ;; k" := (bind m (fun x => k))
  (at level 61, m at next level, right associativity).

(** Splits a hypothesis [x <- m ;; ... = Ok r] into the results of its
    steps. *)
Ltac split_binds H :=
  repeat match type of H with
         | bind ?m _ = Ok _ =>
             let E := fresh "E" in
             destruct m eqn:E; simpl in H; [|discriminate H]
         end.

(** A list comprehension [[f(x) for x in l]]: elements are evaluated from
    left to right and the first exception ends the evaluation. *)
Definition mapM {A B} (f : A -> result B) : list A -> result (list B) :=
  fix go (l : list A) : result (list B) :=
    match l with
    | [] => Ok []
    | x :: r => y <- f x ;; ys <- go r ;; Ok (y :: ys)
    end.

(** ** Strings *)

(** [sep.join(parts)] on strings. *)
Fixpoint join (sep : string) (parts : list string) : string :=
  match parts with
  | [] => ""
  | [x] => x
  | x :: rest => x ++ sep ++ join sep rest
  end.

(** [s.split(c)] for a separator of one character: never empty. *)
Fixpoint split (c : ascii) (s : string) : list string :=
  match s with
  | EmptyString => [""]
  | String a r =>
      if Ascii.eqb a c then "" :: split c r
      else match split c r with
           | h :: t => String a h :: t
           | [] => [String a ""]
           end
  end.

(** [s.index(c)] for a needle of one character; [None] where Python raises
    [ValueError], and [c in s]. *)
Fixpoint str_index (c : ascii) (s : string) : option nat :=
  match s with
  | EmptyString => None
  | String a r =>
      if Ascii.eqb a c then Some 0
      else match str_index c r with
           | Some i => Some (S i)
           | None => None
           end
  end.

Definition str_contains (c : ascii) (s : string) : bool :=
  match str_index c s with Some _ => true | None => false end.

(** The slices [s[:i]], [s[i:]] and [s[i:j]]; a slice never raises, it is
    cut at the end of the string. *)
Definition slice_to (i : nat) (s : string) : string := substring 0 i s.
Definition slice_from (i : nat) (s : string) : string :=
  substring i (String.length s - i) s.
Definition slice (i j : nat) (s : string) : string := substring i (j - i) s.

(** The characters of a string, as Python iterates or indexes it. *)
Fixpoint chars (s : string) : list pyval :=
  match s with
  | EmptyString => []
  | String a r => PStr (String a "") :: chars r
  end.

(** ** Mappings *)

(** [d[k] = v]: an existing key keeps its position. *)
Fixpoint dict_set (d : dict) (k : string) (v : pyval) : dict :=
  match d with
  | [] => [(k, v)]
  | (k', v') :: r =>
      if String.eqb k' k then (k', v) :: r else (k', v') :: dict_set r k v
  end.

Fixpoint dict_lookup (d : dict) (k : string) : option pyval :=
  match d with
  | [] => None
  | (k', v') :: r => if String.eqb k' k then Some v' else dict_lookup r k
  end.

(** [d.update(items)], which is also what a display [{k1: v1, ..., **m}]
    and [dict(pairs)] do, starting from the empty mapping. *)
Definition dict_update (d : dict) (items : list (string * pyval)) : dict :=
  fold_left (fun acc kv => dict_set acc (fst kv) (snd kv)) items d.

Definition dict_of (items : list (string * pyval)) : dict :=
  dict_update [] items.

Definition keys (d : dict) : list string := map fst d.
Definition values (d : dict) : list pyval := map snd d.

End Py.

(** ** The functions of [utils.py] *)

Module Utils.
Import Py.

Definition is_None (v : pyval) : bool :=
  match v with PNone => true | _ => false end.

(** [[f(x) for x in l if keep(x)]]. *)
Definition filter_mapM {A B} (keep : A -> bool) (f : A -> result B)
  : list A -> result (list B) :=
  fix go (l : list A) : result (list B) :=
    match l with
    | [] => Ok []
    | x :: r => if keep x then y <- f x ;; ys <- go r ;; Ok (y :: ys) else go r
    end.

(** What [for x in v] visits; [None] where Python raises [TypeError].
    Iterating a mapping visits its keys. *)
Definition py_iter (v : pyval) : option (list pyval) :=
  match v with
  | PStr s => Some (chars s)
  | PList l => Some l
  | PResLoc d p => Some [d; p]
  | PDict d => Some (map PStr (keys d))
  | _ => None
  end.

(** [def is_sequence(data_in)]:
    [isinstance(data_in, Sequence) and not isinstance(data_in, str)]. *)
Definition is_sequence (data_in : pyval) : bool :=
  is_Sequence data_in && negb (is_str data_in).

(** [def flatten_list(container)].  [flatten_item i] is what one turn of
    the loop yields for the element [i]: the flattening of [i] when
    [is_sequence(i)], and [i] itself otherwise.  The generator is consumed
    by [[*flatten_list(...)]] at every call site, so it is modelled by the
    list of what it yields. *)
Fixpoint flatten_item (i : pyval) : list pyval :=
  match i with
  | PList l => flat_map flatten_item l
  | PResLoc d p => flat_map flatten_item [d; p]
  | _ => [i]
  end.

Definition flatten_list (container : list pyval) : list pyval :=
  flat_map flatten_item container.

(** [def del_none(data_in)]. *)
Fixpoint del_none (data_in : pyval) : result pyval :=
  let not_none (v : pyval) := negb (is_None v) in
  let each (l : list pyval) :=
    rs <- filter_mapM not_none del_none l ;; Ok (PList rs) in
  match data_in with
  | PDict d =>
      items <- filter_mapM (fun kv => not_none (snd kv))
                 (fun kv => v <- del_none (snd kv) ;; Ok (fst kv, v)) d ;;
      Ok (PDict (dict_of items))
  | PList l => each l
  | PResLoc d p => each [d; p]
  | PNone => Raise NonePassed
  | _ => Ok data_in
  end.

(** The document [write] hands to [json_dump]:
    [del_none({'__comment__': ..., **data})]. *)
Definition write_document (data : pyval) : result pyval :=
  match data with
  | PDict d =>
      del_none (PDict (dict_of
        (("__comment__", PStr "This file was automatically created by mcresources") :: d)))
  | _ => Raise TypeError
  end.

(** [def str_path(data_in)]. *)
Fixpoint str_path (data_in : pyval) : result (list pyval) :=
  let each (l : list pyval) :=
    rs <- mapM str_path l ;; Ok (flatten_list (map PList rs)) in
  match data_in with
  | PStr s => Ok (map PStr (split "/" s))
  | PList l => each l
  | PResLoc d p => each [d; p]
  | _ => Raise (UnknownObject data_in "str_path")
  end.

(** [def str_list(data_in)]. *)
Definition str_list (data_in : pyval) : result (list pyval) :=
  match data_in with
  | PStr s => Ok [data_in]
  | PList l => Ok (flatten_list l)
  | PResLoc d p => Ok (flatten_list [d; p])
  | _ => Raise (UnknownObject data_in "str_list")
  end.

(** [sep.join(parts)]: every part has to be a [str]. *)
Definition str_join (sep : string) (parts : list pyval) : result string :=
  ss <- mapM (fun v => match v with PStr s => Ok s | _ => Raise TypeError end) parts ;;
  Ok (join sep ss).

(** ['/'.join(str_path(data))], the joined path text. *)
Definition joined_path (data : pyval) : result string :=
  parts <- str_path data ;; str_join "/" parts.

(** [def resource_location( *elements)], after the arguments have been
    unpacked into [domain] and [data]. *)
Definition resolve (domain data : pyval) : result pyval :=
  if is_ResourceLocation data then Ok data
  else
    joined <- joined_path data ;;
    if str_contains ":" joined then
      match str_index ":" joined with
      | Some i =>
          Ok (PResLoc (PStr (slice_to i joined)) (PStr (slice_from (i + 1) joined)))
      | None => Raise SubstringNotFound
      end
    else Ok (PResLoc domain (PStr joined)).

Definition resource_location (elements : list pyval) : result pyval :=
  match elements with
  | [data] => resolve (PStr "minecraft") data
  | [domain; data] => resolve domain data
  | _ => Raise ArityError
  end.

(** [def dict_get(data_in, key, default=None, map_function=None)]. *)
Definition dict_get (data_in : dict) (key : string) (default : pyval)
    (map_function : option (pyval -> result pyval)) : result pyval :=
  match dict_lookup data_in key with
  | Some v =>
      match map_function with
      | None => Ok v
      | Some f => f v
      end
  | None => Ok default
  end.

(** A normaliser that returns a list, used as a [map_function]. *)
Definition listed (f : pyval -> result (list pyval)) (v : pyval) : result pyval :=
  l <- f v ;; Ok (PList l).

(** *** Asset parts *)

(** [def recipe_condition(data_in, strict=False)]. *)
Fixpoint recipe_condition (data_in : pyval) (strict : bool) : result pyval :=
  let each (l : list pyval) :=
    rs <- mapM (fun c => recipe_condition c true) l ;;
    Ok (PList (flatten_list rs)) in
  let unknown := Raise (UnknownObject data_in "recipe_condition") in
  match data_in with
  | PNone => Ok PNone
  | PStr s => Ok (PList [PDict (dict_of [("type", data_in)])])
  | PDict _ => Ok (PList [data_in])
  | PList l => if negb strict then each l else unknown
  | PResLoc d p => if negb strict then each [d; p] else unknown
  | _ => unknown
  end.

(** [def item_stack(data_in)]. *)
Fixpoint item_stack (data_in : pyval) : result dict :=
  let pair (l : list pyval) :=
    match l with
    | [count; item] => m <- item_stack item ;; Ok (dict_of (("count", count) :: m))
    | _ => Raise ItemStackArity
    end in
  match data_in with
  | PStr s =>
      if String.eqb (slice 0 4 s) "tag!"
      then Ok (dict_of [("tag", PStr (slice_from 4 s))])
      else Ok (dict_of [("item", data_in)])
  | PDict d => Ok d
  | PList l => pair l
  | PResLoc d p => pair [d; p]
  | _ => Raise (UnknownObject data_in "item_stack")
  end.

(** [def item_stack_list(data_in)]. *)
Definition item_stack_list (data_in : pyval) : result (list pyval) :=
  let each (l : list pyval) :=
    ms <- mapM item_stack l ;; Ok (flatten_list (map PDict ms)) in
  match data_in with
  | PStr _ | PDict _ => m <- item_stack data_in ;; Ok [PDict m]
  | PList l => each l
  | PResLoc d p => each [d; p]
  | _ => Raise (UnknownObject data_in "item_stack_list")
  end.

(** [def item_stack_dict(data_in, default_char='#')]. *)
Definition item_stack_dict (data_in : pyval) (default_char : string) : result dict :=
  match data_in with
  | PDict d =>
      items <- mapM (fun kv => m <- item_stack (snd kv) ;; Ok (fst kv, PDict m)) d ;;
      Ok (dict_of items)
  | PStr _ => m <- item_stack data_in ;; Ok (dict_of [(default_char, PDict m)])
  | _ => Raise (UnknownObject data_in "item_stack_dict")
  end.

(** ['layer%d' % i]. *)
Definition layer_key (i : nat) : string :=
  "layer" ++ NilEmpty.string_of_uint (Nat.to_uint i).

Fixpoint layers (i : nat) (l : list pyval) : list (string * pyval) :=
  match l with
  | [] => []
  | x :: r => (layer_key i, x) :: layers (S i) r
  end.

(** [def item_model_textures(data_in)]. *)
Definition item_model_textures (data_in : pyval) : result dict :=
  match data_in with
  | PStr _ => Ok (dict_of [("layer0", data_in)])
  | PList l => Ok (dict_of (layers 0 l))
  | PResLoc d p => Ok (dict_of (layers 0 [d; p]))
  | PDict d => Ok d
  | _ => Raise (UnknownObject data_in "item_model_textures")
  end.

(** [def blockstate_multipart_parts(data_in)], with its local [part]. *)
Definition multipart_part (p : pyval) : result pyval :=
  let unknown := Raise (UnknownObject p "blockstate_multipart_parts#part") in
  match p with
  | PDict _ => Ok (PDict (dict_of [("apply", p)]))
  | PStr _ | PList _ | PResLoc _ _ =>
      match py_iter p with
      | Some [w; a] => Ok (PDict (dict_of [("when", w); ("apply", a)]))
      | _ => unknown
      end
  | _ => unknown
  end.

Definition blockstate_multipart_parts (data_in : pyval) : result (list pyval) :=
  match py_iter data_in with
  | Some items => mapM multipart_part items
  | None => Raise TypeError
  end.

(** [def lang_parts(data_in, entries=None)].  The loop walks the positions
    of [data_in]; a string takes the next position as its value.  The
    mapping [entries] is shared with the recursive calls, which is modelled
    by passing it in and out. *)
Definition lang_parts_loop (nested : pyval -> dict -> result dict)
  : list pyval -> dict -> result dict :=
  fix loop (items : list pyval) (entries : dict) : result dict :=
    match items with
    | [] => Ok entries
    | part :: rest =>
        match part with
        | PStr key =>
            match rest with
            | value :: rest' => loop rest' (dict_set entries key value)
            | [] => Raise IndexError
            end
        | PList _ | PResLoc _ _ => e <- nested part entries ;; loop rest e
        | PDict d => loop rest (dict_update entries d)
        | _ => Raise (UnknownObject part "lang_parts")
        end
    end.

Fixpoint lang_parts_into (data_in : pyval) (entries : dict) : result dict :=
  match data_in with
  | PList l => lang_parts_loop lang_parts_into l entries
  | PResLoc d p => lang_parts_loop lang_parts_into [d; p] entries
  | PStr s =>
      (* the items of a string are strings: no recursive call is reached *)
      lang_parts_loop (fun part _ => Raise (UnknownObject part "lang_parts"))
        (chars s) entries
  | PDict [] => Ok entries
  | PDict (_ :: _) => Raise KeyError       (* data_in[0] on string keys *)
  | _ => Raise TypeError                    (* len(data_in) *)
  end.

Definition lang_parts (data_in : pyval) (entries : option dict) : result dict :=
  lang_parts_into data_in (match entries with Some e => e | None => [] end).

(** *** Loot tables *)

(** [def loot_default_conditions(loot_type)]. *)
Definition loot_default_conditions (loot_type : string) : pyval :=
  if String.eqb loot_type "block"
  then PList [PDict (dict_of [("condition", PStr "minecraft:survives_explosion")])]
  else PNone.

(** [def loot_condition_list(data_in)]. *)
Fixpoint loot_condition_list (data_in : pyval) : result (list pyval) :=
  let each (l : list pyval) :=
    rs <- mapM loot_condition_list l ;; Ok (flatten_list (map PList rs)) in
  match data_in with
  | PStr _ => Ok [PDict (dict_of [("condition", data_in)])]
  | PList l => each l
  | PResLoc d p => each [d; p]
  | PDict _ => Ok [data_in]
  | _ => Raise (UnknownObject data_in "loot_condition_list")
  end.

(** [def loot_function_list(data_in)]. *)
Fixpoint loot_function_list (data_in : pyval) : result (list pyval) :=
  let each (l : list pyval) :=
    rs <- mapM loot_function_list l ;; Ok (flatten_list (map PList rs)) in
  match data_in with
  | PStr _ => Ok [PDict (dict_of [("function", data_in)])]
  | PList l => each l
  | PResLoc d p => each [d; p]
  | PDict _ => Ok [data_in]
  | _ => Raise (UnknownObject data_in "loot_function_list")
  end.

(** [def loot_entry_list(data_in)]. *)
Fixpoint loot_entry_list (data_in : pyval) : result (list pyval) :=
  let each (l : list pyval) :=
    rs <- mapM loot_entry_list l ;; Ok (flatten_list (map PList rs)) in
  match data_in with
  | PStr s =>
      if String.eqb (slice 0 4 s) "tag!"
      then Ok [PDict (dict_of [("type", PStr "minecraft:tag");
                               ("name", PStr (slice_from 4 s))])]
      else Ok [PDict (dict_of [("type", PStr "minecraft:item"); ("name", data_in)])]
  | PList l => each l
  | PResLoc d p => each [d; p]
  | PDict d =>
      type <- dict_get d "type" (PStr "item") None ;;
      conditions <- dict_get d "conditions" PNone (Some (listed loot_condition_list)) ;;
      name <- dict_get d "name" PNone None ;;
      children <- dict_get d "children" PNone None ;;
      expand <- dict_get d "expand" PNone None ;;
      functions <- dict_get d "functions" PNone (Some (listed loot_function_list)) ;;
      weight <- dict_get d "weight" PNone None ;;
      quality <- dict_get d "quality" PNone None ;;
      Ok [PDict (dict_of [("type", type); ("conditions", conditions); ("name", name);
                          ("children", children); ("expand", expand);
                          ("functions", functions); ("weight", weight);
                          ("quality", quality)])]
  | _ => Raise (UnknownObject data_in "loot_entry_list")
  end.

(** [def loot_pool_list(data_in, loot_type)]. *)
Fixpoint loot_pool_list (data_in : pyval) (loot_type : string) : result (list pyval) :=
  let each (l : list pyval) :=
    rs <- mapM (fun p => loot_pool_list p loot_type) l ;;
    Ok (flatten_list (map PList rs)) in
  match data_in with
  | PStr _ =>
      entries <- loot_entry_list data_in ;;
      Ok [PDict (dict_of [("name", PStr "loot_pool"); ("rolls", PInt 1);
                          ("entries", PList entries);
                          ("conditions", loot_default_conditions loot_type)])]
  | PDict d =>
      rolls <- dict_get d "rolls" (PInt 1) None ;;
      bonus_rolls <- dict_get d "bonus_rolls" PNone None ;;
      entries <- dict_get d "entries" data_in (Some (listed loot_entry_list)) ;;
      conditions <- dict_get d "conditions" (loot_default_conditions loot_type)
                      (Some (listed loot_condition_list)) ;;
      functions <- dict_get d "functions" PNone (Some (listed loot_function_list)) ;;
      Ok [PDict (dict_of [("name", PStr "loot_pool"); ("rolls", rolls);
                          ("bonus_rolls", bonus_rolls); ("entries", entries);
                          ("conditions", conditions); ("functions", functions)])]
  | PList l => each l
  | PResLoc d p => each [d; p]
  | _ => Raise (UnknownObject data_in "loot_pool_list")
  end.

(** *** Standard blockstates *)

(** The three shapes of a model reference in the stairs table. *)
Definition model (m : pyval) : pyval := PDict (dict_of [("model", m)]).
Definition model_y (m : pyval) (y : Z) : pyval :=
  PDict (dict_of [("model", m); ("y", PInt y); ("uvlock", PBool true)]).
Definition model_x (m : pyval) (x : Z) : pyval :=
  PDict (dict_of [("model", m); ("x", PInt x); ("uvlock", PBool true)]).
Definition model_xy (m : pyval) (x y : Z) : pyval :=
  PDict (dict_of [("model", m); ("x", PInt x); ("y", PInt y); ("uvlock", PBool true)]).

(** [def stairs_variants(stairs, stairs_inner, stairs_outer)]: the display
    of the source, entry by entry. *)
Definition stairs_variants (stairs stairs_inner stairs_outer : pyval) : dict :=
  dict_of [
    ("facing=east,half=bottom,shape=straight", model stairs);
    ("facing=west,half=bottom,shape=straight", model_y stairs 180);
    ("facing=south,half=bottom,shape=straight", model_y stairs 90);
    ("facing=north,half=bottom,shape=straight", model_y stairs 270);
    ("facing=east,half=bottom,shape=outer_right", model stairs_outer);
    ("facing=west,half=bottom,shape=outer_right", model_y stairs_outer 180);
    ("facing=south,half=bottom,shape=outer_right", model_y stairs_outer 90);
    ("facing=north,half=bottom,shape=outer_right", model_y stairs_outer 270);
    ("facing=east,half=bottom,shape=outer_left", model_y stairs_outer 270);
    ("facing=west,half=bottom,shape=outer_left", model_y stairs_outer 90);
    ("facing=south,half=bottom,shape=outer_left", model stairs_outer);
    ("facing=north,half=bottom,shape=outer_left", model_y stairs_outer 180);
    ("facing=east,half=bottom,shape=inner_right", model stairs_inner);
    ("facing=west,half=bottom,shape=inner_right", model_y stairs_inner 180);
    ("facing=south,half=bottom,shape=inner_right", model_y stairs_inner 90);
    ("facing=north,half=bottom,shape=inner_right", model_y stairs_inner 270);
    ("facing=east,half=bottom,shape=inner_left", model_y stairs_inner 270);
    ("facing=west,half=bottom,shape=inner_left", model_y stairs_inner 90);
    ("facing=south,half=bottom,shape=inner_left", model stairs_inner);
    ("facing=north,half=bottom,shape=inner_left", model_y stairs_inner 180);
    ("facing=east,half=top,shape=straight", model_x stairs 180);
    ("facing=west,half=top,shape=straight", model_xy stairs 180 180);
    ("facing=south,half=top,shape=straight", model_xy stairs 180 90);
    ("facing=north,half=top,shape=straight", model_xy stairs 180 270);
    ("facing=east,half=top,shape=outer_right", model_xy stairs_outer 180 90);
    ("facing=west,half=top,shape=outer_right", model_xy stairs_outer 180 270);
    ("facing=south,half=top,shape=outer_right", model_xy stairs_outer 180 180);
    ("facing=north,half=top,shape=outer_right", model_x stairs_outer 180);
    ("facing=east,half=top,shape=outer_left", model_x stairs_outer 180);
    ("facing=west,half=top,shape=outer_left", model_xy stairs_outer 180 180);
    ("facing=south,half=top,shape=outer_left", model_xy stairs_outer 180 90);
    ("facing=north,half=top,shape=outer_left", model_xy stairs_outer 180 270);
    ("facing=east,half=top,shape=inner_right", model_xy stairs_inner 180 90);
    ("facing=west,half=top,shape=inner_right", model_xy stairs_inner 180 270);
    ("facing=south,half=top,shape=inner_right", model_xy stairs_inner 180 180);
    ("facing=north,half=top,shape=inner_right", model_x stairs_inner 180);
    ("facing=east,half=top,shape=inner_left", model_x stairs_inner 180);
    ("facing=west,half=top,shape=inner_left", model_xy stairs_inner 180 180);
    ("facing=south,half=top,shape=inner_left", model_xy stairs_inner 180 90);
    ("facing=north,half=top,shape=inner_left", model_xy stairs_inner 180 270)
  ].

(** [def domain_path_parts(name_parts, default_domain)]. *)
Definition domain_path_parts (name_parts default_domain : pyval)
  : result (pyval * list pyval) :=
  joined <- joined_path name_parts ;;
  if str_contains ":" joined then
    match str_index ":" joined with
    | Some i =>
        Ok (PStr (slice_to i joined),
            map PStr (split "/" (slice_from (i + 1) joined)))
    | None => Raise SubstringNotFound
    end
  else parts <- str_path (PStr joined) ;; Ok (default_domain, parts).

(** [res.domain == 'minecraft']. *)
Definition eq_str (v : pyval) (s : string) : bool :=
  match v with PStr s' => String.eqb s' s | _ => false end.

(** [def simple_resource_location(data, use_minecraft_domain=False)].
    ['%s' % v] is the text [str(v)] of the interpreter, which is the string
    itself for a string; for the other values it is left as a parameter. *)
Section Formatting.
Variable format_s : pyval -> string.

Definition simple_resource_location (data : pyval) (use_minecraft_domain : bool)
  : result pyval :=
  res <- resource_location [PStr "minecraft"; data] ;;
  match res with
  | PResLoc domain path =>
      if eq_str domain "minecraft" && negb use_minecraft_domain
      then Ok path
      else Ok (PStr (format_s domain ++ ":" ++ format_s path))
  | _ => Raise TypeError     (* not reached: [res] is a ResourceLocation *)
  end.
End Formatting.

(** *** The other standard blockstates *)

Definition model_uvlock (m : pyval) : pyval :=
  PDict (dict_of [("model", m); ("uvlock", PBool true)]).
Definition gate_model_y (m : pyval) (y : Z) : pyval :=
  PDict (dict_of [("model", m); ("uvlock", PBool true); ("y", PInt y)]).
Definition when_true (direction : string) : pyval :=
  PDict (dict_of [(direction, PStr "true")]).

(** [def slab_variants(block, block_slab, block_slab_top)]. *)
Definition slab_variants (block block_slab block_slab_top : pyval) : dict :=
  dict_of [
    ("type=bottom", model block_slab);
    ("type=top", model block_slab_top);
    ("type=double", model block)
  ].

(** [def fence_multipart(fence_post, fence_side)]. *)
Definition fence_multipart (fence_post fence_side : pyval) : list pyval :=
  [ model fence_post;
    PList [when_true "north"; model_uvlock fence_side];
    PList [when_true "east"; model_y fence_side 90];
    PList [when_true "south"; model_y fence_side 180];
    PList [when_true "west"; model_y fence_side 270] ].

(** [def fence_gate_variants(fence_gate, fence_gate_open, fence_gate_wall,
    fence_gate_wall_open)]. *)
Definition fence_gate_variants
    (fence_gate fence_gate_open fence_gate_wall fence_gate_wall_open : pyval) : dict :=
  dict_of [
    ("facing=south,in_wall=false,open=false", model_uvlock fence_gate);
    ("facing=west,in_wall=false,open=false", gate_model_y fence_gate 90);
    ("facing=north,in_wall=false,open=false", gate_model_y fence_gate 180);
    ("facing=east,in_wall=false,open=false", gate_model_y fence_gate 270);
    ("facing=south,in_wall=false,open=true", model_uvlock fence_gate_open);
    ("facing=west,in_wall=false,open=true", gate_model_y fence_gate_open 90);
    ("facing=north,in_wall=false,open=true", gate_model_y fence_gate_open 180);
    ("facing=east,in_wall=false,open=true", gate_model_y fence_gate_open 270);
    ("facing=south,in_wall=true,open=false", model_uvlock fence_gate_wall);
    ("facing=west,in_wall=true,open=false", gate_model_y fence_gate_wall 90);
    ("facing=north,in_wall=true,open=false", gate_model_y fence_gate_wall 180);
    ("facing=east,in_wall=true,open=false", gate_model_y fence_gate_wall 270);
    ("facing=south,in_wall=true,open=true", model_uvlock fence_gate_wall_open);
    ("facing=west,in_wall=true,open=true", gate_model_y fence_gate_wall_open 90);
    ("facing=north,in_wall=true,open=true", gate_model_y fence_gate_wall_open 180);
    ("facing=east,in_wall=true,open=true", gate_model_y fence_gate_wall_open 270)
  ].

(** [def wall_multipart(wall_post, wall_side)]. *)
Definition wall_multipart (wall_post wall_side : pyval) : list pyval :=
  [ PList [when_true "up"; model wall_post];
    PList [when_true "north"; model_uvlock wall_side];
    PList [when_true "east"; model_y wall_side 90];
    PList [when_true "south"; model_y wall_side 180];
    PList [when_true "west"; model_y wall_side 270] ].

End Utils.

(** ** [type_definitions.py] *)

Module TypeDefinitions.

(** [class ResourceLocation(NamedTuple('ResourceLocation', domain=str,
    path=str))]. *)
Record ResourceLocation : Type := { domain : string; path : string }.

(** [def join(self, prefix='', simple=False)]. *)
Definition join (self : ResourceLocation) (prefix : string) (simple : bool) : string :=
  if simple && String.eqb (domain self) "minecraft"
  then prefix ++ path self
  else domain self ++ ":" ++ prefix ++ path self.

End TypeDefinitions.

(** ** Notions the specification uses *)

Module Spec.
Import Py Utils.

(** Pre-flattening: [preflatten v v'] holds when [v'] is [v] with some of
    its nested sub-sequences (any subset of them, at any depth, [v] itself
    included) replaced by the list of their own flattening. *)
Inductive preflatten : pyval -> pyval -> Prop :=
| pre_keep : forall v, preflatten v v
| pre_inside : forall l l',
    preflatten_all l l' -> preflatten (PList l) (PList l')
| pre_inside_tuple : forall d p d' p',
    preflatten d d' -> preflatten p p' -> preflatten (PResLoc d p) (PResLoc d' p')
| pre_replace : forall l l',
    preflatten_all l l' -> preflatten (PList l) (PList (flatten_list l'))
| pre_replace_tuple : forall d p d' p',
    preflatten d d' -> preflatten p p' ->
    preflatten (PResLoc d p) (PList (flatten_list [d'; p']))
with preflatten_all : list pyval -> list pyval -> Prop :=
| pre_nil : preflatten_all [] []
| pre_cons : forall x x' l l',
    preflatten x x' -> preflatten_all l l' -> preflatten_all (x :: l) (x' :: l').

Scheme preflatten_mut := Induction for preflatten Sort Prop
  with preflatten_all_mut := Induction for preflatten_all Sort Prop.

(** No [None] as an element of a list or as a value of a mapping, at any
    depth, and the value is not [None] itself. *)
Fixpoint none_free (v : pyval) : bool :=
  match v with
  | PNone => false
  | PList l => forallb none_free l
  | PResLoc d p => none_free d && none_free p
  | PDict d => forallb (fun kv => none_free (snd kv)) d
  | _ => true
  end.

(** A string that is not empty. *)
Definition nonempty_str (v : pyval) : Prop :=
  exists s, v = PStr s /\ s <> "".

(** The positional arguments of a call of [resource_location] with or
    without a default domain, and the domain it then falls back to. *)
Definition call (default : option pyval) (data : pyval) : list pyval :=
  match default with
  | Some domain => [domain; data]
  | None => [data]
  end.

Definition default_domain (default : option pyval) : pyval :=
  match default with
  | Some domain => domain
  | None => PStr "minecraft"
  end.

(** The joined path text leaves neither side empty: the texts before and
    after its first [:] are not empty, or it has no [:] and is not empty. *)
Definition well_delimited (joined : string) : bool :=
  match str_index ":" joined with
  | Some i => Nat.ltb 0 i && Nat.ltb (i + 1) (String.length joined)
  | None => negb (String.eqb joined "")
  end.

(** The loot entry of a bare string: a tag entry when the string carries
    the [tag!] marker, which is stripped, and an item entry otherwise. *)
Inductive string_entry : string -> pyval -> Prop :=
| entry_tag : forall name,
    string_entry ("tag!" ++ name)%string
      (PDict [("type", PStr "minecraft:tag"); ("name", PStr name)])
| entry_item : forall s,
    (forall name, s <> ("tag!" ++ name)%string) ->
    string_entry s (PDict [("type", PStr "minecraft:item"); ("name", PStr s)]).

(** The optional fields of a loot entry and of a loot pool given as a
    mapping: those that [dict_get] reads with the default [None]. *)
Definition entry_optional_fields : list string :=
  ["conditions"; "name"; "children"; "expand"; "functions"; "weight"; "quality"].

Definition pool_optional_fields : list string := ["bonus_rolls"; "functions"].

(** The blockstate properties of stairs and the key of one combination. *)
Definition facings : list string := ["east"; "west"; "south"; "north"].
Definition halves : list string := ["bottom"; "top"].
Definition shapes : list string :=
  ["straight"; "inner_left"; "inner_right"; "outer_left"; "outer_right"].

Definition stairs_key (facing half shape : string) : string :=
  "facing=" ++ facing ++ ",half=" ++ half ++ ",shape=" ++ shape.

Definition stairs_combinations : list string :=
  flat_map (fun f => flat_map (fun h => map (stairs_key f h) shapes) halves) facings.

(** A leaf is anything [flatten_list] does not descend into. *)
Definition is_leaf (v : pyval) : Prop := is_sequence v = false.

(** A path specification: a string, or a nesting of sequences whose
    leaves are all strings. *)
Definition path_like (v : pyval) : bool := forallb is_str (flatten_item v).

(** Normalise every item with [f] and concatenate the results. *)
Definition concat_map (f : pyval -> result (list pyval)) (l : list pyval)
  : result (list pyval) :=
  rs <- mapM f l ;; Ok (List.concat rs).

(** What [del_none] has been through: no [None] inside, no tuple left,
    and the keys of every mapping distinct. *)
Fixpoint stripped (v : pyval) : Prop :=
  match v with
  | PNone => False
  | PResLoc _ _ => False
  | PList l =>
      (fix all (l : list pyval) : Prop :=
         match l with
         | [] => True
         | x :: r => stripped x /\ all r
         end) l
  | PDict d =>
      NoDup (keys d)
      /\ (fix all (d : dict) : Prop :=
            match d with
            | [] => True
            | kv :: r => stripped (snd kv) /\ all r
            end) d
  | _ => True
  end.

(** The marker that [write] puts into every document. *)
Definition generated_marker : pyval :=
  PStr "This file was automatically created by mcresources".

(** A loot pool as [loot_pool_list] builds it: a mapping named
    ['loot_pool'] with rolls, entries and conditions. *)
Definition is_pool (x : pyval) : Prop :=
  exists m rolls entries conditions,
    x = PDict m
    /\ dict_lookup m "name" = Some (PStr "loot_pool")
    /\ dict_lookup m "rolls" = Some rolls
    /\ dict_lookup m "entries" = Some entries
    /\ dict_lookup m "conditions" = Some conditions.

(** A loot entry: a mapping with a type. *)
Definition is_entry (x : pyval) : Prop :=
  exists m type, x = PDict m /\ dict_lookup m "type" = Some type.

(** The value that the last of the given pairs gives to a key. *)
Definition last_given (pairs : list (string * pyval)) (k : string) : option pyval :=
  dict_lookup (rev pairs) k.

(** Key, value, key, value, ...: the flat sequence of some pairs. *)
Definition alternating (pairs : list (string * pyval)) : list pyval :=
  flat_map (fun kv => [PStr (fst kv); snd kv]) pairs.

(** An item of a language sequence that is merged as a whole: a nested
    sequence of pairs ([inl]) or a mapping ([inr]). *)
Definition lang_item (x : dict + dict) : pyval :=
  match x with
  | inl pairs => PList (alternating pairs)
  | inr d => PDict d
  end.

Definition lang_item_pairs (x : dict + dict) : dict :=
  match x with
  | inl pairs => pairs
  | inr d => d
  end.


(** The stairs table as a rule.  A facing turns the model by its angle
    from east; a left shape is a right shape turned a quarter back at the
    bottom, and the top half, which is the model upside down, is a quarter
    ahead of the bottom for the corner shapes. *)
Definition stairs_facing_angle (facing : string) : Z :=
  if String.eqb facing "east" then 0
  else if String.eqb facing "south" then 90
  else if String.eqb facing "west" then 180
  else 270.

Definition is_left (shape : string) : bool :=
  String.eqb shape "inner_left" || String.eqb shape "outer_left".

Definition stairs_turn (half shape : string) : Z :=
  if String.eqb shape "straight" then 0
  else if String.eqb half "bottom"
       then (if is_left shape then 270 else 0)
       else (if is_left shape then 0 else 90).

Definition stairs_model (stairs stairs_inner stairs_outer : pyval) (shape : string)
  : pyval :=
  if String.eqb shape "straight" then stairs
  else if String.eqb shape "inner_left" || String.eqb shape "inner_right"
       then stairs_inner
       else stairs_outer.

Definition stairs_entry (stairs stairs_inner stairs_outer : pyval)
    (facing half shape : string) : pyval :=
  let y := ((stairs_facing_angle facing + stairs_turn half shape) mod 360)%Z in
  let top := String.eqb half "top" in
  let turned := negb (Z.eqb y 0) in
  PDict ([("model", stairs_model stairs stairs_inner stairs_outer shape)]
         ++ (if top then [("x", PInt 180)] else [])
         ++ (if turned then [("y", PInt y)] else [])
         ++ (if top || turned then [("uvlock", PBool true)] else [])).

(** The fence gate table as a rule: the facing alone decides the angle,
    counted from south, and the two flags alone decide the model. *)
Definition flags : list string := ["false"; "true"].

Definition gate_key (facing in_wall open : string) : string :=
  "facing=" ++ facing ++ ",in_wall=" ++ in_wall ++ ",open=" ++ open.

Definition gate_angle (facing : string) : Z :=
  if String.eqb facing "south" then 0
  else if String.eqb facing "west" then 90
  else if String.eqb facing "north" then 180
  else 270.

Definition gate_entry (fence_gate fence_gate_open fence_gate_wall fence_gate_wall_open
                       : pyval) (facing in_wall open : string) : pyval :=
  let m := if String.eqb in_wall "true"
           then (if String.eqb open "true" then fence_gate_wall_open else fence_gate_wall)
           else (if String.eqb open "true" then fence_gate_open else fence_gate) in
  let y := gate_angle facing in
  PDict ([("model", m); ("uvlock", PBool true)]
         ++ (if Z.eqb y 0 then [] else [("y", PInt y)])).

(** Every string of [l1] occurs in [l2]. *)
Definition subset_check (l1 l2 : list string) : bool :=
  forallb (fun k => existsb (String.eqb k) l2) l1.

End Spec.

(** ** Strings, comprehensions and mappings *)

Module Facts.
Import Py Utils.
Local Open Scope string_scope.

Lemma substring_all (s : string) : substring 0 (String.length s) s = s.
Proof. induction s as [|a r IH]; simpl; [reflexivity | now rewrite IH]. Qed.

Lemma slice_to_app (d x : string) : slice_to (String.length d) (d ++ x) = d.
Proof.
  unfold slice_to. induction d as [|a r IH]; simpl.
  - now destruct x.
  - now rewrite IH.
Qed.

Lemma substring_skip (d x : string) (n : nat) :
  substring (String.length d) n (d ++ x) = substring 0 n x.
Proof. induction d as [|a r IH]; simpl; [reflexivity | exact IH]. Qed.

Lemma length_app (d x : string) :
  String.length (d ++ x) = String.length d + String.length x.
Proof. induction d as [|a r IH]; simpl; [reflexivity | now rewrite IH]. Qed.

Lemma slice_from_app (d x : string) : slice_from (String.length d) (d ++ x) = x.
Proof.
  unfold slice_from. rewrite substring_skip, length_app.
  replace (String.length d + String.length x - String.length d)
    with (String.length x) by lia.
  apply substring_all.
Qed.

Lemma slice_from_after (d p : string) (c : ascii) :
  slice_from (String.length d + 1) (d ++ String c p) = p.
Proof.
  replace (d ++ String c p)%string with ((d ++ String c "") ++ p)%string.
  - replace (String.length d + 1) with (String.length (d ++ String c "")%string).
    + apply slice_from_app.
    + rewrite length_app. reflexivity.
  - induction d as [|a r IH]; simpl; [reflexivity | now rewrite IH].
Qed.

Lemma str_index_first (c : ascii) (d p : string) :
  str_contains c d = false ->
  str_index c (d ++ String c p) = Some (String.length d).
Proof.
  unfold str_contains. induction d as [|a r IH]; simpl; intros H.
  - now rewrite Ascii.eqb_refl.
  - destruct (Ascii.eqb a c); [discriminate|].
    destruct (str_index c r) eqn:E; [discriminate|].
    now rewrite IH.
Qed.

(** [str_index] finds the first occurrence: the text splits around it. *)
Lemma str_index_split (c : ascii) (s : string) (i : nat) :
  str_index c s = Some i ->
  exists d p, s = d ++ String c p /\ str_contains c d = false /\ String.length d = i.
Proof.
  unfold str_contains. revert i. induction s as [|a r IH]; simpl; intros i H.
  - discriminate.
  - destruct (Ascii.eqb a c) eqn:E.
    + apply Ascii.eqb_eq in E. subst a. injection H as <-.
      exists "", r. repeat split.
    + destruct (str_index c r) as [j|] eqn:Er; [|discriminate].
      injection H as <-. destruct (IH j eq_refl) as (d & p & -> & Hd & Hl).
      exists (String a d), p. simpl. rewrite E.
      destruct (str_index c d); [discriminate|]. now rewrite Hl.
Qed.

Lemma split_nonempty (c : ascii) (s : string) : split c s <> [].
Proof.
  destruct s as [|a r]; simpl; [discriminate|].
  destruct (Ascii.eqb a c); [discriminate|].
  destruct (split c r); discriminate.
Qed.

Lemma join_split (c : ascii) (s : string) : join (String c "") (split c s) = s.
Proof.
  induction s as [|a r IH]; simpl; [reflexivity|].
  destruct (Ascii.eqb a c) eqn:E.
  - apply Ascii.eqb_eq in E. subst a.
    destruct (split c r) as [|h t] eqn:Es.
    + now apply split_nonempty in Es.
    + simpl in *. now rewrite IH.
  - destruct (split c r) as [|h t] eqn:Es.
    + now apply split_nonempty in Es.
    + destruct t; simpl in *; now rewrite <- IH.
Qed.

Lemma string_app_assoc (a b c : string) : ((a ++ b) ++ c = a ++ (b ++ c))%string.
Proof. induction a as [|x r IH]; simpl; [reflexivity | now rewrite IH]. Qed.

Lemma join_app (sep : string) (l1 l2 : list string) :
  l1 <> [] -> l2 <> [] ->
  join sep (l1 ++ l2) = (join sep l1 ++ sep ++ join sep l2)%string.
Proof.
  intros H1 H2. induction l1 as [|x r IH]; [congruence|].
  destruct r as [|y r'].
  - simpl. destruct l2; [congruence | reflexivity].
  - change (join sep ((x :: y :: r') ++ l2)%list)
      with (x ++ sep ++ join sep ((y :: r') ++ l2)%list)%string.
    rewrite IH by discriminate.
    change (join sep (x :: y :: r')) with (x ++ sep ++ join sep (y :: r'))%string.
    now rewrite !string_app_assoc.
Qed.

End Facts.

(** ** The shape flattener *)

Module FlattenSpec.
Import Py Utils Spec.

(** The model follows the loop of the source: an element that
    [is_sequence] contributes the flattening of its items, any other
    element contributes itself. *)
Lemma flatten_item_unfold (i : pyval) :
  flatten_item i =
  if is_sequence i
  then match py_iter i with Some items => flatten_list items | None => [] end
  else [i].
Proof. destruct i; reflexivity. Qed.

Lemma flatten_list_cons (i : pyval) (rest : list pyval) :
  flatten_list (i :: rest) = flatten_item i ++ flatten_list rest.
Proof. reflexivity. Qed.

Lemma flatten_list_app (a b : list pyval) :
  flatten_list (a ++ b) = flatten_list a ++ flatten_list b.
Proof. apply flat_map_app. Qed.

(** What the flattener yields are leaves: strings and other non-sequences. *)
Lemma flatten_item_leaves (v : pyval) :
  Forall (fun x => is_sequence x = false) (flatten_item v).
Proof.
  induction v as [| b | z | s | l IH | d p IHd IHp | d IH] using pyval_ind;
    try (repeat constructor; fail).
  - change (flatten_item (PList l)) with (flatten_list l).
    induction IH as [|x r Hx _ IHr]; simpl; [constructor|].
    apply Forall_app; split; assumption.
  - simpl. rewrite app_nil_r. apply Forall_app; split; assumption.
Qed.

Lemma flatten_list_leaves (l : list pyval) :
  Forall (fun x => is_sequence x = false) (flatten_list l).
Proof.
  induction l as [|x r IH]; simpl; [constructor|].
  apply Forall_app; split; [apply flatten_item_leaves | exact IH].
Qed.

Lemma flatten_list_of_leaves (l : list pyval) :
  Forall (fun x => is_sequence x = false) l -> flatten_list l = l.
Proof.
  induction 1 as [|x r Hx _ IH]; [reflexivity|].
  rewrite flatten_list_cons, IH.
  destruct x; try reflexivity; discriminate.
Qed.

Lemma flatten_list_idempotent (l : list pyval) :
  flatten_list (flatten_list l) = flatten_list l.
Proof. apply flatten_list_of_leaves, flatten_list_leaves. Qed.

(** C9.  Flattening is associative: replacing any nested sub-sequences of a
    container, at any depth, by their own flattening before calling
    [flatten_list] gives the same flat result as [flatten_list] on the
    container itself.  Strings are leaves on both sides. *)
Theorem flatten_list_associative (c c' : list pyval) :
  preflatten_all c c' -> flatten_list c' = flatten_list c.
Proof.
  revert c c'.
  apply (preflatten_all_mut
           (fun v v' _ => flatten_item v' = flatten_item v)
           (fun l l' _ => flatten_list l' = flatten_list l)).
  - reflexivity.
  - intros l l' _ IH. exact IH.
  - intros d p d' p' _ IHd _ IHp. simpl. now rewrite IHd, IHp.
  - intros l l' _ IH.
    change (flatten_item (PList (flatten_list l')))
      with (flatten_list (flatten_list l')).
    now rewrite flatten_list_idempotent.
  - intros d p d' p' _ IHd _ IHp.
    change (flatten_item (PList (flatten_list [d'; p'])))
      with (flatten_list (flatten_list [d'; p'])).
    rewrite flatten_list_idempotent. simpl. now rewrite IHd, IHp.
  - reflexivity.
  - intros x x' l l' _ IHx _ IHl. rewrite !flatten_list_cons. now rewrite IHx, IHl.
Qed.

(** [[["a", ["b"]], "c", [["d"], []]]] with its first element and the
    innermost [["d"]] flattened beforehand. *)
Lemma flatten_list_associative_witness :
  preflatten_all
    [PList [PStr "a"; PList [PStr "b"]]; PStr "c"; PList [PList [PStr "d"]; PList []]]
    [PList [PStr "a"; PStr "b"]; PStr "c"; PList [PList [PStr "d"]; PList []]]
  /\ flatten_list
       [PList [PStr "a"; PStr "b"]; PStr "c"; PList [PList [PStr "d"]; PList []]]
     = flatten_list
         [PList [PStr "a"; PList [PStr "b"]]; PStr "c";
          PList [PList [PStr "d"]; PList []]].
Proof.
  assert (H : preflatten_all
                [PList [PStr "a"; PList [PStr "b"]]; PStr "c";
                 PList [PList [PStr "d"]; PList []]]
                [PList [PStr "a"; PStr "b"]; PStr "c";
                 PList [PList [PStr "d"]; PList []]]).
  { apply pre_cons.
    - apply (pre_replace [PStr "a"; PList [PStr "b"]] [PStr "a"; PList [PStr "b"]]).
      repeat (apply pre_cons; [apply pre_keep|]). apply pre_nil.
    - repeat (apply pre_cons; [apply pre_keep|]). apply pre_nil. }
  split; [exact H | exact (flatten_list_associative _ _ H)].
Defined.

End FlattenSpec.

(** ** The identifier resolver *)

Module ResolverSpec.
Import Py Utils Spec Facts.
Local Open Scope string_scope.

Lemma mapM_ok_Forall {A B} (f : A -> result B) (Q : B -> Prop) (l : list A) :
  Forall (fun x => forall y, f x = Ok y -> Q y) l ->
  forall ys, mapM f l = Ok ys -> Forall Q ys.
Proof.
  induction 1 as [|x r Hx _ IH]; simpl; intros ys Hys.
  - injection Hys as <-. constructor.
  - destruct (f x) as [y|e] eqn:E; simpl in Hys; [|discriminate].
    destruct (mapM f r) as [zs|e]; simpl in Hys; [|discriminate].
    injection Hys as <-. constructor; [apply Hx, eq_refl | apply IH, eq_refl].
Qed.

Lemma mapM_map_ok {A B C} (f : B -> result C) (g : A -> B) (h : A -> C) (l : list A) :
  (forall a, f (g a) = Ok (h a)) -> mapM f (map g l) = Ok (map h l).
Proof.
  intros H. induction l as [|a r IH]; simpl; [reflexivity|].
  now rewrite H, IH.
Qed.

Lemma str_join_strings (sep : string) (ss : list string) :
  str_join sep (map PStr ss) = Ok (join sep ss).
Proof.
  unfold str_join. rewrite (mapM_map_ok _ PStr (fun s => s)) by reflexivity.
  now rewrite map_id.
Qed.

(** Flattening lists of strings is concatenation. *)
Lemma flatten_string_lists (sss : list (list string)) :
  flatten_list (map PList (map (map PStr) sss)) = map PStr (List.concat sss).
Proof.
  induction sss as [|ss r IH]; [reflexivity|].
  simpl map. rewrite FlattenSpec.flatten_list_cons, IH, map_app. f_equal.
  change (flatten_item (PList (map PStr ss))) with (flatten_list (map PStr ss)).
  apply FlattenSpec.flatten_list_of_leaves.
  apply Forall_forall. intros x Hx. apply in_map_iff in Hx.
  destruct Hx as (s & <- & _). reflexivity.
Qed.

Lemma all_string_lists (rs : list (list pyval)) :
  Forall (fun r => exists ss, r = map PStr ss) rs ->
  exists sss, rs = map (map PStr) sss.
Proof.
  induction 1 as [|r rs' (ss & ->) _ (sss & ->)].
  - now exists [].
  - now exists (ss :: sss).
Qed.

(** [str_path] returns strings only, so that [join] never raises. *)
Lemma str_path_strings (data : pyval) :
  forall l, str_path data = Ok l -> exists ss, l = map PStr ss.
Proof.
  assert (each : forall items,
             Forall (fun x => forall l, str_path x = Ok l -> exists ss, l = map PStr ss)
               items ->
             forall l,
               (rs <- mapM str_path items ;; Ok (flatten_list (map PList rs))) = Ok l ->
               exists ss, l = map PStr ss).
  { intros items IH l H.
    destruct (mapM str_path items) as [rs|e] eqn:E; simpl in H; [|discriminate].
    injection H as <-.
    destruct (all_string_lists rs (mapM_ok_Forall _ _ _ IH rs E)) as (sss & ->).
    exists (List.concat sss). apply flatten_string_lists. }
  induction data as [| b | z | s | l IH | d p IHd IHp | d IH] using pyval_ind;
    intros out H; try discriminate.
  - injection H as <-. now exists (split "/" s).
  - apply (each l IH out H).
  - apply (each [d; p]); [|exact H]. repeat constructor; assumption.
Qed.

Lemma joined_path_total (data : pyval) (parts : list pyval) :
  str_path data = Ok parts -> exists joined, joined_path data = Ok joined.
Proof.
  intros H. unfold joined_path. rewrite H. simpl.
  destruct (str_path_strings data parts H) as (ss & ->).
  rewrite str_join_strings. now exists (join "/" ss).
Qed.

Lemma joined_path_string (s : string) : joined_path (PStr s) = Ok s.
Proof.
  unfold joined_path. simpl. rewrite str_join_strings. now rewrite join_split.
Qed.

Lemma join_concat_split (segs : list string) :
  join "/" (List.concat (map (split "/") segs)) = join "/" segs.
Proof.
  induction segs as [|s r IH]; [reflexivity|].
  destruct r as [|s' r'].
  - simpl. rewrite app_nil_r. apply join_split.
  - change (List.concat (map (split "/") (s :: s' :: r')))
      with (split "/" s ++ List.concat (map (split "/") (s' :: r')))%list.
    rewrite join_app.
    + rewrite IH, join_split. reflexivity.
    + apply split_nonempty.
    + simpl. destruct (split "/" s') eqn:E; [now apply split_nonempty in E | discriminate].
Qed.

(** A sequence of string segments has the joined text of its ['/']-join. *)
Lemma joined_path_segments (segs : list string) :
  joined_path (PList (map PStr segs)) = Ok (join "/" segs).
Proof.
  unfold joined_path. simpl.
  rewrite (mapM_map_ok _ PStr (fun s => map PStr (split "/" s))) by reflexivity.
  simpl. rewrite <- (map_map (split "/") (map PStr)).
  rewrite flatten_string_lists, str_join_strings. now rewrite join_concat_split.
Qed.

(** The two branches of [resolve] on a joined text. *)
Lemma resolve_colon (domain data : pyval) (dom path : string) :
  is_ResourceLocation data = false ->
  joined_path data = Ok (dom ++ ":" ++ path) ->
  str_contains ":" dom = false ->
  resolve domain data = Ok (PResLoc (PStr dom) (PStr path)).
Proof.
  intros Hr Hj Hd. unfold resolve. rewrite Hr, Hj. simpl bind.
  unfold str_contains. change (":" ++ path) with (String ":" path).
  rewrite (str_index_first _ _ _ Hd).
  now rewrite slice_to_app, slice_from_after.
Qed.

Lemma resolve_plain (domain data : pyval) (joined : string) :
  is_ResourceLocation data = false ->
  joined_path data = Ok joined ->
  str_contains ":" joined = false ->
  resolve domain data = Ok (PResLoc domain (PStr joined)).
Proof.
  intros Hr Hj Hc. unfold resolve. now rewrite Hr, Hj; simpl; rewrite Hc.
Qed.

Lemma resource_location_call (default : option pyval) (data : pyval) :
  resource_location (call default data) = resolve (default_domain default) data.
Proof. destruct default; reflexivity. Qed.

Lemma nonempty_length (s : string) : s <> "" <-> 0 < String.length s.
Proof. destruct s; simpl; split; intros H; try congruence; try lia. Qed.

Lemma nonempty_str_PStr (s : string) : nonempty_str (PStr s) <-> s <> "".
Proof.
  split.
  - intros (s' & [= <-] & H). exact H.
  - intros H. now exists s.
Qed.

(** C1, as stated, fails on an already-resolved identifier: it is a valid
    input, its text ["foo/bar"] has no [:], and
    [resource_location('baz', ResourceLocation('foo', 'bar'))] keeps the
    domain ['foo'] instead of the default ['baz']. *)
Lemma resource_location_resolved_keeps_domain :
  ~ (forall default data joined,
        joined_path data = Ok joined -> str_contains ":" joined = false ->
        exists path, resource_location [default; data] = Ok (PResLoc default path)).
Proof.
  intros H.
  destruct (H (PStr "baz") (PResLoc (PStr "foo") (PStr "bar")) "foo/bar"
              eq_refl eq_refl) as (path & Hp).
  discriminate Hp.
Qed.

(** C1, amended.  For every input that is not an already-resolved
    [ResourceLocation]: when the joined path text contains a [:], it is
    split at the first [:] into (domain, path) and the default domain of
    the caller is discarded; when it contains none, the resolved domain is
    the default domain of the caller, or ['minecraft'] when none is
    supplied, and the path is the joined text. *)
Theorem resource_location_resolution (default : option pyval) (data : pyval)
    (joined : string) :
  is_ResourceLocation data = false ->
  joined_path data = Ok joined ->
  (forall dom path,
      joined = dom ++ ":" ++ path -> str_contains ":" dom = false ->
      resource_location (call default data) = Ok (PResLoc (PStr dom) (PStr path)))
  /\ (str_contains ":" joined = false ->
      resource_location (call default data)
      = Ok (PResLoc (default_domain default) (PStr joined))).
Proof.
  intros Hr Hj. rewrite resource_location_call. split.
  - intros dom path -> Hd. now apply resolve_colon.
  - intros Hc. now apply resolve_plain.
Qed.

Lemma resource_location_resolution_witness :
  (is_ResourceLocation (PList [PStr "mod:block"; PStr "ore"]) = false
   /\ joined_path (PList [PStr "mod:block"; PStr "ore"]) = Ok "mod:block/ore")
  /\ resource_location [PStr "other"; PList [PStr "mod:block"; PStr "ore"]]
     = Ok (PResLoc (PStr "mod") (PStr "block/ore")).
Proof.
  split; [split; reflexivity|].
  exact (proj1 (resource_location_resolution (Some (PStr "other"))
                  (PList [PStr "mod:block"; PStr "ore"]) "mod:block/ore"
                  eq_refl eq_refl)
           "mod" "block/ore" eq_refl eq_refl).
Defined.

(** C2, as stated, fails: ["a:b:c"] resolves to path ['b:c'], not ['b']. *)
Lemma resource_location_a_b_c_path :
  resource_location [PStr "a:b:c"] = Ok (PResLoc (PStr "a") (PStr "b:c"))
  /\ resource_location [PStr "a:b:c"] <> Ok (PResLoc (PStr "a") (PStr "b")).
Proof. split; [reflexivity | discriminate]. Qed.

(** C2, amended.  The single string ["a:b:c"] resolves to domain ['a'] and
    path ['b:c']: the text is split at its first [:] only and whatever
    follows, later colons included, is the path.  The split is made on the
    fully joined text and not per segment: a sequence of string segments
    resolves as the single string of its ['/']-join does. *)
Theorem resource_location_splits_joined_text (default : option pyval)
    (dom path : string) (segs : list string) :
  str_contains ":" dom = false ->
  resource_location [PStr "a:b:c"] = Ok (PResLoc (PStr "a") (PStr "b:c"))
  /\ resource_location (call default (PStr (dom ++ ":" ++ path)))
     = Ok (PResLoc (PStr dom) (PStr path))
  /\ resource_location (call default (PList (map PStr segs)))
     = resource_location (call default (PStr (join "/" segs))).
Proof.
  intros Hd. split; [reflexivity|]. split.
  - rewrite resource_location_call.
    apply resolve_colon; [reflexivity | apply joined_path_string | exact Hd].
  - rewrite !resource_location_call. unfold resolve.
    now rewrite joined_path_segments, joined_path_string.
Qed.

Lemma resource_location_splits_joined_text_witness :
  str_contains ":" "a/b" = false
  /\ resource_location [PStr "a/b:c:d"] = Ok (PResLoc (PStr "a/b") (PStr "c:d"))
  /\ resource_location [PList [PStr "a"; PStr "b:c"; PStr "d"]]
     = resource_location [PStr "a/b:c/d"].
Proof.
  split; [reflexivity|].
  exact (proj2 (resource_location_splits_joined_text None "a/b" "c:d"
                  ["a"; "b:c"; "d"] eq_refl)).
Defined.

(** C7, as stated, fails: [resource_location("")] is accepted and resolves
    to the empty path in domain ['minecraft']. *)
Lemma resource_location_empty_path :
  ~ (forall elements domain path,
        resource_location elements = Ok (PResLoc domain path) ->
        nonempty_str domain /\ nonempty_str path).
Proof.
  intros H.
  destruct (H [PStr ""] (PStr "minecraft") (PStr "") eq_refl)
    as (_ & s & [= <-] & Hs).
  now apply Hs.
Qed.

(** C7, amended.  For every input accepted by [resource_location] that is
    not an already-resolved identifier, with a default domain that is a
    non-empty string (or with none), the resolved [ResourceLocation] has a
    non-empty domain string and a non-empty path string exactly when the
    joined path text is not empty on either side of its first [:], or has
    no [:] and is not empty. *)
Theorem resource_location_nonempty (default : option pyval) (data : pyval)
    (joined : string) :
  is_ResourceLocation data = false ->
  joined_path data = Ok joined ->
  nonempty_str (default_domain default) ->
  exists domain path,
    resource_location (call default data) = Ok (PResLoc domain path)
    /\ (nonempty_str domain /\ nonempty_str path <-> well_delimited joined = true).
Proof.
  intros Hr Hj Hdef. rewrite resource_location_call. unfold well_delimited.
  destruct (str_index ":" joined) as [i|] eqn:Ei.
  - destruct (str_index_split _ _ _ Ei) as (dom & path & -> & Hd & Hl).
    exists (PStr dom), (PStr path). split.
    + now apply resolve_colon.
    + rewrite !nonempty_str_PStr, !nonempty_length, andb_true_iff.
      rewrite Nat.ltb_lt, Nat.ltb_lt, length_app. simpl String.length. lia.
  - exists (default_domain default), (PStr joined). split.
    + apply resolve_plain; [assumption | assumption |].
      unfold str_contains. now rewrite Ei.
    + rewrite nonempty_str_PStr, negb_true_iff. split.
      * intros (_ & Hne). now apply String.eqb_neq.
      * intros Hne. split; [exact Hdef | now apply String.eqb_neq].
Qed.

Lemma resource_location_nonempty_witness :
  (is_ResourceLocation (PStr "bar/baz") = false
   /\ joined_path (PStr "bar/baz") = Ok "bar/baz"
   /\ nonempty_str (PStr "foo"))
  /\ exists domain path,
       resource_location [PStr "foo"; PStr "bar/baz"] = Ok (PResLoc domain path)
       /\ (nonempty_str domain /\ nonempty_str path <-> well_delimited "bar/baz" = true).
Proof.
  assert (Hfoo : nonempty_str (PStr "foo")) by (exists "foo"; split; [reflexivity | discriminate]).
  split; [repeat split; exact Hfoo|].
  exact (resource_location_nonempty (Some (PStr "foo")) (PStr "bar/baz") "bar/baz"
           eq_refl eq_refl Hfoo).
Defined.

End ResolverSpec.

(** ** The dialect normalisers *)

Module NormalizerSpec.
Import Py Utils Spec Facts.
Local Open Scope string_scope.

(** The [tag!] test of [item_stack] and [loot_entry_list]. *)
Lemma tag_marker_true (s : string) :
  String.eqb (slice 0 4 s) "tag!" = true -> s = "tag!" ++ slice_from 4 s.
Proof.
  intros H. apply String.eqb_eq in H.
  unfold slice in H.
  destruct s as [|c1 [|c2 [|c3 [|c4 r]]]]; simpl in H; try discriminate H.
  injection H as -> -> -> -> _.
  unfold slice_from. simpl. now rewrite Nat.sub_0_r, substring_all.
Qed.

Lemma tag_marker_false (s : string) :
  String.eqb (slice 0 4 s) "tag!" = false -> forall name, s <> "tag!" ++ name.
Proof.
  intros H name ->. destruct name; vm_compute in H; discriminate H.
Qed.

(** C4, as stated, fails: the items of a sequence given to
    [item_stack_list] are item stacks of their own, and [2] is none. *)
Lemma item_stack_list_rejects_count_pair :
  item_stack_list (PList [PInt 2; PStr "minecraft:stick"])
  = Raise (UnknownObject (PInt 2) "item_stack")
  /\ item_stack_list (PList [PInt 2; PStr "minecraft:stick"])
     <> Ok [PDict [("count", PInt 2); ("item", PStr "minecraft:stick")]].
Proof. split; [reflexivity | discriminate]. Qed.

(** C4, amended.  [item_stack] applied to the 2-element sequence
    [[2, "minecraft:stick"]] returns the count-merged mapping
    [{"count": 2, "item": "minecraft:stick"}], and [item_stack_list]
    returns the singleton list of that mapping when the pair is itself an
    item of the sequence, [[[2, "minecraft:stick"]]].  Applied to the bare
    pair, [item_stack_list] raises the unrecognised-input error of
    [item_stack] for the count. *)
Theorem item_stack_list_count_pair :
  item_stack (PList [PInt 2; PStr "minecraft:stick"])
  = Ok [("count", PInt 2); ("item", PStr "minecraft:stick")]
  /\ item_stack_list (PList [PList [PInt 2; PStr "minecraft:stick"]])
     = Ok [PDict [("count", PInt 2); ("item", PStr "minecraft:stick")]]
  /\ (forall count rest,
        item_stack_list (PList (PInt count :: rest))
        = Raise (UnknownObject (PInt count) "item_stack")).
Proof. repeat split. Qed.

(** C5.  For every bare string [s], [loot_pool_list(s, kind)] returns
    exactly one pool, with one roll and the single item or tag entry of
    [s]; its conditions are the "survives explosion" condition when the
    kind is ['block'], and there is none for any other kind. *)
Theorem loot_pool_list_string (s kind : string) :
  exists entry conditions,
    loot_pool_list (PStr s) kind
    = Ok [PDict [("name", PStr "loot_pool"); ("rolls", PInt 1);
                 ("entries", PList [entry]); ("conditions", conditions)]]
    /\ string_entry s entry
    /\ (kind = "block" ->
        conditions = PList [PDict [("condition", PStr "minecraft:survives_explosion")]])
    /\ (kind <> "block" -> conditions = PNone).
Proof.
  assert (Hc : (kind = "block" ->
                loot_default_conditions kind
                = PList [PDict [("condition", PStr "minecraft:survives_explosion")]])
               /\ (kind <> "block" -> loot_default_conditions kind = PNone)).
  { unfold loot_default_conditions. split.
    - intros ->. reflexivity.
    - intros H. apply String.eqb_neq in H. now rewrite H. }
  simpl. destruct (String.eqb (slice 0 4 s) "tag!") eqn:E.
  - eexists _, _. split; [reflexivity|]. split; [|exact Hc].
    rewrite (tag_marker_true s E) at 1. apply entry_tag.
  - eexists _, _. split; [reflexivity|]. split; [|exact Hc].
    apply entry_item, tag_marker_false, E.
Qed.

Lemma loot_pool_list_string_witness :
  exists entry,
    loot_pool_list (PStr "minecraft:dirt") "block"
    = Ok [PDict [("name", PStr "loot_pool"); ("rolls", PInt 1);
                 ("entries", PList [entry]);
                 ("conditions",
                  PList [PDict [("condition", PStr "minecraft:survives_explosion")]])]]
    /\ string_entry "minecraft:dirt" entry.
Proof.
  destruct (loot_pool_list_string "minecraft:dirt" "block")
    as (entry & conditions & Heq & He & Hb & _).
  exists entry. rewrite (Hb eq_refl) in Heq. split; assumption.
Defined.

(** In strict mode every failure of [recipe_condition] is the
    unrecognised-input error for its own argument. *)
Lemma recipe_condition_strict_error (c : pyval) (e : exn) :
  recipe_condition c true = Raise e -> e = UnknownObject c "recipe_condition".
Proof. destruct c; simpl; intros H; try discriminate H; now injection H as <-. Qed.

Lemma recipe_condition_strict_sequence (c : pyval) :
  is_sequence c = true ->
  recipe_condition c true = Raise (UnknownObject c "recipe_condition").
Proof. destruct c; simpl; intros H; try discriminate H; reflexivity. Qed.

Lemma recipe_condition_sequence (l : list pyval) :
  recipe_condition (PList l) false
  = (rs <- mapM (fun c => recipe_condition c true) l ;; Ok (PList (flatten_list rs))).
Proof. reflexivity. Qed.

Lemma mapM_app_raise {A B} (f : A -> result B) (pre post : list A) (x : A) (e : exn) :
  Forall (fun a => exists b, f a = Ok b) pre ->
  f x = Raise e ->
  mapM f (pre ++ x :: post) = Raise e.
Proof.
  intros Hpre Hx. induction Hpre as [|a r (b & Hb) _ IH]; simpl.
  - now rewrite Hx.
  - now rewrite Hb, IH.
Qed.

(** C6.  [recipe_condition] turns a string [s] into [[{type: s}]] and
    wraps a mapping into a single-element list.  A sequence is normalised
    element by element in strict mode and the results are flattened: a
    flat sequence of strings and mappings is accepted, and a sequence
    nested inside the top-level sequence is rejected with the
    unrecognised-input error of [recipe_condition]. *)
Theorem recipe_condition_shapes :
  (forall s strict,
      recipe_condition (PStr s) strict = Ok (PList [PDict [("type", PStr s)]]))
  /\ (forall d strict, recipe_condition (PDict d) strict = Ok (PList [PDict d]))
  /\ (forall l,
        recipe_condition (PList l) false
        = (rs <- mapM (fun c => recipe_condition c true) l ;;
           Ok (PList (flatten_list rs))))
  /\ (forall l,
        Forall (fun c => is_str c || is_dict c = true) l ->
        recipe_condition (PList l) false
        = Ok (PList (map (fun c => match c with
                                   | PStr _ => PDict [("type", c)]
                                   | _ => c
                                   end) l)))
  /\ (forall pre nested post,
        Forall (fun c => exists r, recipe_condition c true = Ok r) pre ->
        is_sequence nested = true ->
        recipe_condition (PList (pre ++ nested :: post)) false
        = Raise (UnknownObject nested "recipe_condition"))
  /\ (forall l,
        Exists (fun c => is_sequence c = true) l ->
        exists c, In c l /\
          recipe_condition (PList l) false = Raise (UnknownObject c "recipe_condition")).
Proof.
  split; [reflexivity|]. split; [reflexivity|]. split; [reflexivity|].
  split; [|split].
  - intros l H. rewrite recipe_condition_sequence.
    assert (E : mapM (fun c => recipe_condition c true) l
                = Ok (map (fun c => match c with
                                    | PStr _ => PList [PDict [("type", c)]]
                                    | _ => PList [c]
                                    end) l)).
    { induction H as [|c r Hc _ IH]; simpl mapM; [reflexivity|].
      rewrite IH. destruct c; try discriminate Hc; reflexivity. }
    rewrite E. clear E. simpl bind. do 2 f_equal.
    induction H as [|c r Hc _ IH]; [reflexivity|].
    simpl map. rewrite FlattenSpec.flatten_list_cons, IH.
    destruct c; try discriminate Hc; reflexivity.
  - intros pre nested post Hpre Hn. rewrite recipe_condition_sequence.
    rewrite (mapM_app_raise _ pre post nested _ Hpre
               (recipe_condition_strict_sequence nested Hn)).
    reflexivity.
  - intros l H. rewrite recipe_condition_sequence.
    induction l as [|x r IH]; [inversion H|].
    simpl mapM. destruct (recipe_condition x true) as [y|e] eqn:Ex.
    + assert (Hr : Exists (fun c => is_sequence c = true) r).
      { inversion H as [? ? Hx|]; [|assumption].
        now rewrite (recipe_condition_strict_sequence x Hx) in Ex. }
      destruct (IH Hr) as (c & Hin & Hc). exists c. split; [now right|].
      simpl bind. destruct (mapM (fun c => recipe_condition c true) r); simpl in *;
        [discriminate Hc | exact Hc].
    + exists x. split; [now left|].
      now rewrite (recipe_condition_strict_error x e Ex).
Qed.

Lemma recipe_condition_shapes_witness :
  (Forall (fun c => exists r, recipe_condition c true = Ok r) [PStr "forge:mod_loaded"]
   /\ is_sequence (PList [PStr "b"]) = true)
  /\ recipe_condition
       (PList ([PStr "forge:mod_loaded"] ++ PList [PStr "b"] :: [PDict []])) false
     = Raise (UnknownObject (PList [PStr "b"]) "recipe_condition").
Proof.
  assert (Hpre : Forall (fun c => exists r, recipe_condition c true = Ok r)
                   [PStr "forge:mod_loaded"]).
  { constructor; [eexists; reflexivity | constructor]. }
  split; [split; [exact Hpre | reflexivity]|].
  exact (proj1 (proj2 (proj2 (proj2 (proj2 recipe_condition_shapes))))
           [PStr "forge:mod_loaded"] (PList [PStr "b"]) [PDict []] Hpre eq_refl).
Defined.

(** C10, as stated, fails for the language-entry dialect: [lang_parts(None)]
    raises the [TypeError] of [len(None)] and no unrecognised-input error. *)
Lemma lang_parts_None_TypeError :
  lang_parts PNone None = Raise TypeError
  /\ (forall name, lang_parts PNone None <> Raise (UnknownObject PNone name)).
Proof. split; [reflexivity | discriminate]. Qed.

(** C10, amended.  [recipe_condition] applied to [None] returns [None]
    instead of raising its unrecognised-input error, unlike the item-stack,
    item-model and loot normalisers, which reject [None] as an unknown
    shape.  [lang_parts] and [blockstate_multipart_parts] fail on [None]
    too, with the [TypeError] of taking its length or iterating it. *)
Theorem recipe_condition_None :
  (forall strict, recipe_condition PNone strict = Ok PNone)
  /\ item_stack PNone = Raise (UnknownObject PNone "item_stack")
  /\ item_stack_list PNone = Raise (UnknownObject PNone "item_stack_list")
  /\ (forall default_char,
        item_stack_dict PNone default_char = Raise (UnknownObject PNone "item_stack_dict"))
  /\ item_model_textures PNone = Raise (UnknownObject PNone "item_model_textures")
  /\ (forall loot_type,
        loot_pool_list PNone loot_type = Raise (UnknownObject PNone "loot_pool_list"))
  /\ loot_entry_list PNone = Raise (UnknownObject PNone "loot_entry_list")
  /\ loot_function_list PNone = Raise (UnknownObject PNone "loot_function_list")
  /\ loot_condition_list PNone = Raise (UnknownObject PNone "loot_condition_list")
  /\ (forall entries, lang_parts PNone entries = Raise TypeError)
  /\ blockstate_multipart_parts PNone = Raise TypeError.
Proof. repeat split. Qed.

End NormalizerSpec.

(** ** Absent optional fields *)

Module AbsentFieldSpec.
Import Py Utils Spec.
Local Open Scope string_scope.

Lemma filter_mapM_total {A B} (keep : A -> bool) (f : A -> result B)
    (Q : B -> Prop) (l : list A) :
  Forall (fun x => keep x = true -> exists y, f x = Ok y /\ Q y) l ->
  exists ys, filter_mapM keep f l = Ok ys /\ Forall Q ys.
Proof.
  induction 1 as [|x r Hx _ (ys & Hys & HQ)]; simpl.
  - exists []. split; [reflexivity | constructor].
  - destruct (keep x) eqn:K.
    + destruct (Hx eq_refl) as (y & Hy & Qy). rewrite Hy, Hys. simpl.
      exists (y :: ys). split; [reflexivity | now constructor].
    + exists ys. split; assumption.
Qed.

Lemma dict_set_values (Q : pyval -> Prop) (d : dict) (k : string) (v : pyval) :
  Forall (fun kv => Q (snd kv)) d -> Q v -> Forall (fun kv => Q (snd kv)) (dict_set d k v).
Proof.
  intros Hd Hv. induction Hd as [|[k' v'] r Hkv Hr IH]; simpl.
  - repeat constructor. exact Hv.
  - destruct (String.eqb k' k); constructor; simpl; assumption.
Qed.

Lemma dict_update_values (Q : pyval -> Prop) (items : list (string * pyval)) :
  Forall (fun kv => Q (snd kv)) items ->
  forall d, Forall (fun kv => Q (snd kv)) d ->
            Forall (fun kv => Q (snd kv)) (dict_update d items).
Proof.
  unfold dict_update. induction 1 as [|kv r Hkv _ IH]; simpl; intros d Hd.
  - exact Hd.
  - apply IH. now apply dict_set_values.
Qed.

Lemma none_free_not_None (v : pyval) : none_free v = true -> is_None v = false.
Proof. destruct v; simpl; congruence. Qed.

(** [del_none] accepts everything but [None] itself, and nothing it
    returns holds a [None]. *)
Lemma del_none_none_free (v : pyval) :
  is_None v = false -> exists v', del_none v = Ok v' /\ none_free v' = true.
Proof.
  assert (each : forall items,
             Forall (fun x => is_None x = false ->
                              exists v', del_none x = Ok v' /\ none_free v' = true) items ->
             exists v', (rs <- filter_mapM (fun x => negb (is_None x)) del_none items ;;
                         Ok (PList rs)) = Ok v' /\ none_free v' = true).
  { intros items IH.
    destruct (filter_mapM_total (fun x => negb (is_None x)) del_none
                (fun y => none_free y = true) items) as (rs & Hrs & Hfree).
    - eapply Forall_impl; [|exact IH]. intros x Hx Hk. apply Hx.
      now apply negb_true_iff in Hk.
    - rewrite Hrs. simpl. eexists. split; [reflexivity|].
      simpl. apply forallb_forall. intros y Hy.
      exact (proj1 (Forall_forall _ _) Hfree y Hy). }
  induction v as [| b | z | s | l IH | d p IHd IHp | d IH] using pyval_ind;
    intros Hv; try discriminate Hv; try (eexists; split; reflexivity).
  - apply (each l IH).
  - apply (each [d; p]). repeat constructor; assumption.
  - simpl.
    destruct (filter_mapM_total (fun kv : string * pyval => negb (is_None (snd kv)))
                (fun kv => v <- del_none (snd kv) ;; Ok (fst kv, v))
                (fun kv => none_free (snd kv) = true) d) as (items & Hitems & Hfree).
    + eapply Forall_impl; [|exact IH]. intros [k x] Hx Hk. simpl in *.
      destruct (Hx (proj1 (negb_true_iff _) Hk)) as (x' & Hx' & Hf).
      rewrite Hx'. simpl. eexists. split; [reflexivity | exact Hf].
    + rewrite Hitems. simpl. eexists. split; [reflexivity|].
      simpl. apply forallb_forall. intros kv Hkv.
      assert (Hall : Forall (fun kv => none_free (snd kv) = true) (dict_of items)).
      { apply (dict_update_values (fun x => none_free x = true));
          [exact Hfree | constructor]. }
      exact (proj1 (Forall_forall _ _) Hall kv Hkv).
Qed.

Lemma dict_get_absent (d : dict) (key : string) (default : pyval)
    (f : option (pyval -> result pyval)) :
  dict_lookup d key = None -> dict_get d key default f = Ok default.
Proof. unfold dict_get. now intros ->. Qed.

Lemma loot_entry_list_mapping (d : dict) :
  loot_entry_list (PDict d)
  = (type <- dict_get d "type" (PStr "item") None ;;
     conditions <- dict_get d "conditions" PNone (Some (listed loot_condition_list)) ;;
     name <- dict_get d "name" PNone None ;;
     children <- dict_get d "children" PNone None ;;
     expand <- dict_get d "expand" PNone None ;;
     functions <- dict_get d "functions" PNone (Some (listed loot_function_list)) ;;
     weight <- dict_get d "weight" PNone None ;;
     quality <- dict_get d "quality" PNone None ;;
     Ok [PDict [("type", type); ("conditions", conditions); ("name", name);
                ("children", children); ("expand", expand);
                ("functions", functions); ("weight", weight);
                ("quality", quality)]]).
Proof. reflexivity. Qed.

Lemma loot_pool_list_mapping (d : dict) (loot_type : string) :
  loot_pool_list (PDict d) loot_type
  = (rolls <- dict_get d "rolls" (PInt 1) None ;;
     bonus_rolls <- dict_get d "bonus_rolls" PNone None ;;
     entries <- dict_get d "entries" (PDict d) (Some (listed loot_entry_list)) ;;
     conditions <- dict_get d "conditions" (loot_default_conditions loot_type)
                     (Some (listed loot_condition_list)) ;;
     functions <- dict_get d "functions" PNone (Some (listed loot_function_list)) ;;
     Ok [PDict [("name", PStr "loot_pool"); ("rolls", rolls);
                ("bonus_rolls", bonus_rolls); ("entries", entries);
                ("conditions", conditions); ("functions", functions)]]).
Proof. reflexivity. Qed.

(** C3, as stated, fails: the entry that [loot_entry_list] returns for the
    mapping [{"name": "minecraft:dirt"}] stores [None] under ["weight"] and
    under every other optional field the input leaves out. *)
Lemma loot_entry_list_stores_None :
  ~ (forall data entries m,
        loot_entry_list data = Ok entries -> In (PDict m) entries ->
        ~ In PNone (values m)).
Proof.
  intros H.
  apply (H (PDict [("name", PStr "minecraft:dirt")]) _ _ eq_refl (or_introl eq_refl)).
  simpl. auto.
Qed.

(** C3, amended.  For a mapping input, the mapping that [loot_entry_list]
    and [loot_pool_list] return stores [None] under every optional field
    that is absent from the input.  These placeholders are dropped
    afterwards by [del_none], which [write] applies to every document
    before it is serialised: [del_none] of what a normaliser returns, and
    of any document, succeeds and holds no [None] at any depth. *)
Theorem loot_placeholders_dropped_by_del_none :
  (forall d field out,
      In field entry_optional_fields -> dict_lookup d field = None ->
      loot_entry_list (PDict d) = Ok out ->
      exists m, out = [PDict m] /\ dict_lookup m field = Some PNone)
  /\ (forall d loot_type field out,
        In field pool_optional_fields -> dict_lookup d field = None ->
        loot_pool_list (PDict d) loot_type = Ok out ->
        exists m, out = [PDict m] /\ dict_lookup m field = Some PNone)
  /\ (forall data loot_type out,
        loot_pool_list data loot_type = Ok out \/ loot_entry_list data = Ok out ->
        exists stripped, del_none (PList out) = Ok stripped /\ none_free stripped = true)
  /\ (forall d, exists doc, write_document (PDict d) = Ok doc /\ none_free doc = true).
Proof.
  split; [|split; [|split]].
  - intros d field out Hin Habs H. rewrite loot_entry_list_mapping in H.
    simpl in Hin.
    repeat (destruct Hin as [<- | Hin];
            [rewrite (dict_get_absent d _ _ _ Habs) in H; simpl in H;
             split_binds H; injection H as <-; eexists; split; reflexivity|]).
    contradiction.
  - intros d loot_type field out Hin Habs H. rewrite loot_pool_list_mapping in H.
    simpl in Hin.
    repeat (destruct Hin as [<- | Hin];
            [rewrite (dict_get_absent d _ PNone _ Habs) in H; simpl in H;
             split_binds H; injection H as <-; eexists; split; reflexivity|]).
    contradiction.
  - intros data loot_type out _. now apply del_none_none_free.
  - intros d. unfold write_document. now apply del_none_none_free.
Qed.

Lemma loot_placeholders_dropped_by_del_none_witness :
  (In "weight" entry_optional_fields
   /\ dict_lookup [("name", PStr "minecraft:dirt")] "weight" = None
   /\ loot_entry_list (PDict [("name", PStr "minecraft:dirt")])
      = Ok [PDict [("type", PStr "item"); ("conditions", PNone);
                   ("name", PStr "minecraft:dirt"); ("children", PNone);
                   ("expand", PNone); ("functions", PNone); ("weight", PNone);
                   ("quality", PNone)]])
  /\ (exists m,
        [PDict [("type", PStr "item"); ("conditions", PNone);
                ("name", PStr "minecraft:dirt"); ("children", PNone);
                ("expand", PNone); ("functions", PNone); ("weight", PNone);
                ("quality", PNone)]] = [PDict m]
        /\ dict_lookup m "weight" = Some PNone)
  /\ (exists stripped,
        del_none (PList [PDict [("type", PStr "item"); ("conditions", PNone);
                                ("name", PStr "minecraft:dirt"); ("children", PNone);
                                ("expand", PNone); ("functions", PNone);
                                ("weight", PNone); ("quality", PNone)]])
        = Ok stripped /\ none_free stripped = true).
Proof.
  assert (Hin : In "weight" entry_optional_fields) by (simpl; auto 10).
  split; [repeat split; exact Hin|]. split.
  - exact (proj1 loot_placeholders_dropped_by_del_none
             [("name", PStr "minecraft:dirt")] "weight" _ Hin eq_refl eq_refl).
  - exact (proj1 (proj2 (proj2 loot_placeholders_dropped_by_del_none))
             (PDict [("name", PStr "minecraft:dirt")]) "block" _ (or_intror eq_refl)).
Defined.

End AbsentFieldSpec.

(** ** The stairs table *)

Module StairsSpec.
Import Py Utils Spec.
Local Open Scope string_scope.

Lemma subset_check_incl (l1 l2 : list string) :
  subset_check l1 l2 = true -> incl l1 l2.
Proof.
  unfold subset_check. intros H k Hk.
  apply (proj1 (forallb_forall _ _) H) in Hk.
  apply existsb_exists in Hk. destruct Hk as (k' & Hin & E).
  apply String.eqb_eq in E. now subst k'.
Qed.

Lemma nodup_fixed_NoDup (l : list string) : nodup string_dec l = l -> NoDup l.
Proof. intros <-. apply NoDup_nodup. Qed.

(** The keys do not depend on the three model paths. *)
Lemma stairs_keys_fixed (stairs stairs_inner stairs_outer : pyval) :
  keys (stairs_variants stairs stairs_inner stairs_outer)
  = keys (stairs_variants PNone PNone PNone).
Proof. reflexivity. Qed.

Lemma stairs_combinations_spec (k : string) :
  In k stairs_combinations <->
  exists facing half shape,
    In facing facings /\ In half halves /\ In shape shapes
    /\ k = stairs_key facing half shape.
Proof.
  unfold stairs_combinations. rewrite in_flat_map. split.
  - intros (f & Hf & H). apply in_flat_map in H. destruct H as (h & Hh & H).
    apply in_map_iff in H. destruct H as (s & <- & Hs). now exists f, h, s.
  - intros (f & h & s & Hf & Hh & Hs & ->). exists f. split; [exact Hf|].
    apply in_flat_map. exists h. split; [exact Hh|].
    apply in_map_iff. now exists s.
Qed.

(** C8.  For all model paths, the mapping returned by [stairs_variants] has
    exactly 40 keys, without duplicates, and its key set is exactly the set
    of the 40 distinct combinations of a facing among east, west, south and
    north, a half among bottom and top, and a shape among straight,
    inner_left, inner_right, outer_left and outer_right. *)
Theorem stairs_variants_keys (stairs stairs_inner stairs_outer : string) :
  List.length (keys (stairs_variants (PStr stairs) (PStr stairs_inner) (PStr stairs_outer)))
  = 40
  /\ NoDup (keys (stairs_variants (PStr stairs) (PStr stairs_inner) (PStr stairs_outer)))
  /\ List.length stairs_combinations = 40
  /\ NoDup stairs_combinations
  /\ (forall k,
        In k (keys (stairs_variants (PStr stairs) (PStr stairs_inner) (PStr stairs_outer)))
        <-> exists facing half shape,
              In facing facings /\ In half halves /\ In shape shapes
              /\ k = stairs_key facing half shape).
Proof.
  rewrite stairs_keys_fixed.
  split; [reflexivity|].
  split; [apply nodup_fixed_NoDup; vm_compute; reflexivity|].
  split; [reflexivity|].
  split; [apply nodup_fixed_NoDup; vm_compute; reflexivity|].
  intros k. rewrite <- stairs_combinations_spec. split.
  - apply subset_check_incl. vm_compute. reflexivity.
  - apply subset_check_incl. vm_compute. reflexivity.
Qed.

End StairsSpec.

(** ** Mappings: lookup after insertion *)

Module DictFacts.
Import Py Utils Spec.

Lemma dict_lookup_set_same (d : dict) (k : string) (v : pyval) :
  dict_lookup (dict_set d k v) k = Some v.
Proof.
  induction d as [|[k' v'] r IH]; simpl.
  - now rewrite String.eqb_refl.
  - destruct (String.eqb k' k) eqn:E; simpl; rewrite E; [reflexivity | exact IH].
Qed.

Lemma dict_lookup_set_other (d : dict) (k k' : string) (v : pyval) :
  k <> k' -> dict_lookup (dict_set d k v) k' = dict_lookup d k'.
Proof.
  intros Hne. induction d as [|[k0 v0] r IH]; simpl.
  - apply String.eqb_neq in Hne. now rewrite Hne.
  - destruct (String.eqb k0 k) eqn:E; simpl.
    + apply String.eqb_eq in E. subst k0.
      apply String.eqb_neq in Hne. now rewrite Hne.
    + now rewrite IH.
Qed.

Lemma dict_lookup_None_keys (d : dict) (k : string) :
  dict_lookup d k = None <-> ~ In k (keys d).
Proof.
  induction d as [|[k' v'] r IH]; simpl.
  - tauto.
  - destruct (String.eqb k' k) eqn:E.
    + apply String.eqb_eq in E. split; [discriminate | intros H; exfalso; auto].
    + apply String.eqb_neq in E. rewrite IH. tauto.
Qed.

Lemma dict_set_fresh (d : dict) (k : string) (v : pyval) :
  ~ In k (keys d) -> dict_set d k v = d ++ [(k, v)].
Proof.
  induction d as [|[k' v'] r IH]; simpl; intros H; [reflexivity|].
  destruct (String.eqb k' k) eqn:E.
  - apply String.eqb_eq in E. exfalso. auto.
  - rewrite IH; [reflexivity | tauto].
Qed.

Lemma dict_update_fresh (items d : dict) :
  NoDup (keys (d ++ items)) -> dict_update d items = d ++ items.
Proof.
  unfold dict_update. revert d. induction items as [|[k v] r IH]; simpl; intros d H.
  - now rewrite app_nil_r.
  - replace (d ++ (k, v) :: r) with ((d ++ [(k, v)]) ++ r) in *
      by (now rewrite <- app_assoc).
    rewrite dict_set_fresh.
    + now apply IH.
    + unfold keys in H. rewrite !map_app in H. simpl in H.
      apply NoDup_app_remove_r in H. apply NoDup_remove_2 in H.
      now rewrite app_nil_r in H.
Qed.

(** Building a mapping from pairs with distinct keys keeps the pairs. *)
Lemma dict_of_nodup (d : dict) : NoDup (keys d) -> dict_of d = d.
Proof. intros H. unfold dict_of. now rewrite dict_update_fresh. Qed.

Lemma keys_dict_set (d : dict) (k : string) (v : pyval) :
  keys (dict_set d k v) = if existsb (String.eqb k) (keys d) then keys d
                          else keys d ++ [k].
Proof.
  induction d as [|[k' v'] r IH]; simpl; [reflexivity|].
  rewrite (String.eqb_sym k k').
  destruct (String.eqb k' k); simpl; [reflexivity | now rewrite IH; destruct existsb].
Qed.

Lemma dict_set_NoDup (d : dict) (k : string) (v : pyval) :
  NoDup (keys d) -> NoDup (keys (dict_set d k v)).
Proof.
  intros H. rewrite keys_dict_set.
  destruct (existsb (String.eqb k) (keys d)) eqn:E; [exact H|].
  apply NoDup_app; [exact H | repeat constructor; simpl; tauto |].
  intros x Hx [Hk | []]. subst x.
  assert (Hex : existsb (String.eqb k) (keys d) = true).
  { apply existsb_exists. exists k. split; [exact Hx | apply String.eqb_refl]. }
  congruence.
Qed.

Lemma dict_update_NoDup (items d : dict) :
  NoDup (keys d) -> NoDup (keys (dict_update d items)).
Proof.
  unfold dict_update. revert d. induction items as [|[k v] r IH]; simpl; intros d H.
  - exact H.
  - apply IH. now apply dict_set_NoDup.
Qed.

Lemma dict_update_app (d a b : dict) :
  dict_update d (a ++ b) = dict_update (dict_update d a) b.
Proof. unfold dict_update. apply fold_left_app. Qed.

(** After an update the last pair given for a key decides its value. *)
Lemma dict_lookup_update (items d : dict) (k : string) :
  dict_lookup (dict_update d items) k
  = match dict_lookup (rev items) k with
    | Some v => Some v
    | None => dict_lookup d k
    end.
Proof.
  induction items as [|[k' v'] r IH] using rev_ind; [reflexivity|].
  rewrite dict_update_app, rev_app_distr. simpl.
  destruct (String.eqb k' k) eqn:E.
  - apply String.eqb_eq in E. subst k'. apply dict_lookup_set_same.
  - apply String.eqb_neq in E. rewrite dict_lookup_set_other by exact E. exact IH.
Qed.

End DictFacts.

(** ** Normalisers that map over sequences and flatten *)

Module SequenceFacts.
Import Py Utils Spec Facts.
Local Open Scope string_scope.

Lemma mapM_app {A B} (f : A -> result B) (a b : list A) :
  mapM f (a ++ b) = (ra <- mapM f a ;; rb <- mapM f b ;; Ok (ra ++ rb)%list).
Proof.
  induction a as [|x r IH]; simpl.
  - now destruct (mapM f b).
  - destruct (f x); simpl; [|reflexivity]. rewrite IH.
    destruct (mapM f r); simpl; [|reflexivity].
    now destruct (mapM f b).
Qed.

Lemma flatten_leaf_lists (rs : list (list pyval)) :
  Forall (Forall is_leaf) rs -> flatten_list (map PList rs) = List.concat rs.
Proof.
  induction 1 as [|r rs' Hr _ IH]; [reflexivity|].
  simpl map. rewrite FlattenSpec.flatten_list_cons, IH. simpl. f_equal.
  now apply FlattenSpec.flatten_list_of_leaves.
Qed.

(** The shape shared by [str_path] and the loot normalisers: a sequence is
    normalised item by item and the results are flattened; what a leaf
    gives is a list of leaves with the property [Q]. *)
Section Normaliser.
Variable f : pyval -> result (list pyval).
Variable Q : pyval -> Prop.
Hypothesis Q_leaf : forall x, Q x -> is_leaf x.
Hypothesis f_list : forall l,
  f (PList l) = (rs <- mapM f l ;; Ok (flatten_list (map PList rs))).
Hypothesis f_tuple : forall d p,
  f (PResLoc d p) = (rs <- mapM f [d; p] ;; Ok (flatten_list (map PList rs))).
Hypothesis f_leaf : forall v out, is_leaf v -> f v = Ok out -> Forall Q out.

Lemma concat_map_cons (x : pyval) (r : list pyval) :
  concat_map f (x :: r) = (y <- f x ;; ys <- concat_map f r ;; Ok (y ++ ys)%list).
Proof.
  unfold concat_map. simpl. destruct (f x); simpl; [|reflexivity].
  now destruct (mapM f r).
Qed.

Lemma concat_map_app (a b : list pyval) :
  concat_map f (a ++ b)
  = (ra <- concat_map f a ;; rb <- concat_map f b ;; Ok (ra ++ rb)%list).
Proof.
  unfold concat_map. rewrite mapM_app.
  destruct (mapM f a); simpl; [|reflexivity].
  destruct (mapM f b); simpl; [|reflexivity].
  now rewrite concat_app.
Qed.

Lemma normaliser_leaves (v : pyval) (out : list pyval) :
  f v = Ok out -> Forall is_leaf out.
Proof.
  assert (each : forall items,
             (rs <- mapM f items ;; Ok (flatten_list (map PList rs))) = Ok out ->
             Forall is_leaf out).
  { intros items H. destruct (mapM f items); simpl in H; [|discriminate].
    injection H as <-. apply FlattenSpec.flatten_list_leaves. }
  intros H.
  assert (leaf : is_leaf v -> Forall is_leaf out).
  { intros Hv. eapply Forall_impl; [exact Q_leaf | exact (f_leaf v out Hv H)]. }
  destruct v; try (apply leaf; reflexivity).
  - rewrite f_list in H. now apply each in H.
  - rewrite f_tuple in H. now apply each in H.
Qed.

Lemma normaliser_items (items : list pyval) :
  (rs <- mapM f items ;; Ok (flatten_list (map PList rs))) = concat_map f items.
Proof.
  unfold concat_map. destruct (mapM f items) as [rs|e] eqn:E; simpl; [|reflexivity].
  rewrite flatten_leaf_lists; [reflexivity|].
  apply (ResolverSpec.mapM_ok_Forall f (Forall is_leaf) items); [|exact E].
  apply Forall_forall. intros x _ y. apply normaliser_leaves.
Qed.

Lemma concat_map_flat (items : list pyval) :
  Forall (fun x => f x = concat_map f (flatten_item x)) items ->
  concat_map f items = concat_map f (flatten_list items).
Proof.
  induction 1 as [|x r Hx _ IH]; [reflexivity|].
  rewrite concat_map_cons, FlattenSpec.flatten_list_cons, concat_map_app.
  now rewrite Hx, IH.
Qed.

(** Normalising a value is normalising its leaves, in order. *)
Lemma normaliser_via_leaves (v : pyval) : f v = concat_map f (flatten_item v).
Proof.
  induction v as [| b | z | s | l IH | d p IHd IHp | d IH] using pyval_ind;
    try (simpl flatten_item; rewrite concat_map_cons; destruct (f _); simpl;
         [now rewrite app_nil_r | reflexivity]).
  - rewrite f_list, normaliser_items. now apply concat_map_flat.
  - rewrite f_tuple, normaliser_items.
    change (flatten_item (PResLoc d p)) with (flatten_list [d; p]).
    apply concat_map_flat. repeat constructor; assumption.
Qed.

Lemma normaliser_flatten (l : list pyval) :
  f (PList l) = f (PList (flatten_list l)).
Proof.
  rewrite !normaliser_via_leaves.
  change (flatten_item (PList (flatten_list l)))
    with (flatten_list (flatten_list l)).
  now rewrite FlattenSpec.flatten_list_idempotent.
Qed.

Lemma concat_map_Q (items out : list pyval) :
  Forall is_leaf items -> concat_map f items = Ok out -> Forall Q out.
Proof.
  intros H. revert out. induction H as [|x r Hx _ IH]; intros out Ho.
  - injection Ho as <-. constructor.
  - rewrite concat_map_cons in Ho.
    destruct (f x) as [y|] eqn:Ex; simpl in Ho; [|discriminate].
    destruct (concat_map f r) as [ys|]; simpl in Ho; [|discriminate].
    injection Ho as <-. apply Forall_app. split; [now apply (f_leaf x) | now apply IH].
Qed.

Lemma normaliser_Q (v : pyval) (out : list pyval) : f v = Ok out -> Forall Q out.
Proof.
  rewrite normaliser_via_leaves. apply concat_map_Q.
  apply FlattenSpec.flatten_item_leaves.
Qed.

End Normaliser.

End SequenceFacts.

(** ** More on flattening and on identifiers *)

Module IdentifierFacts.
Import Py Utils Spec Facts.
Local Open Scope string_scope.

(** What [flatten_list] returns is flat, flattening twice changes nothing,
    and the lists that [flatten_list] leaves as they are are exactly the
    lists without a nested sequence. *)
Theorem flatten_list_normal_form (l : list pyval) :
  Forall is_leaf (flatten_list l)
  /\ flatten_list (flatten_list l) = flatten_list l
  /\ (flatten_list l = l <-> Forall is_leaf l).
Proof.
  split; [apply FlattenSpec.flatten_list_leaves|].
  split; [apply FlattenSpec.flatten_list_idempotent|]. split.
  - intros <-. apply FlattenSpec.flatten_list_leaves.
  - apply FlattenSpec.flatten_list_of_leaves.
Qed.

Lemma str_path_via_leaves (data : pyval) :
  str_path data = concat_map str_path (flatten_item data).
Proof.
  apply (SequenceFacts.normaliser_via_leaves str_path is_leaf);
    try reflexivity; [auto|].
  intros v out Hv H. destruct v; try discriminate.
  injection H as <-. apply Forall_forall. intros x Hx.
  apply in_map_iff in Hx. destruct Hx as (s' & <- & _). reflexivity.
Qed.

Lemma str_path_leaf_not_string (x : pyval) :
  is_leaf x -> is_str x = false -> str_path x = Raise (UnknownObject x "str_path").
Proof. destruct x; intros H1 H2; try discriminate; reflexivity. Qed.

Lemma concat_map_str_path (leaves : list pyval) :
  Forall is_leaf leaves ->
  (forallb is_str leaves = true ->
   exists parts, concat_map str_path leaves = Ok (map PStr parts))
  /\ (forallb is_str leaves = false ->
      exists x, In x leaves /\ is_str x = false
                /\ concat_map str_path leaves = Raise (UnknownObject x "str_path")).
Proof.
  induction 1 as [|x r Hx _ [IHt IHf]]; simpl forallb.
  - split; [now exists [] | discriminate].
  - rewrite SequenceFacts.concat_map_cons. destruct (is_str x) eqn:Ex; simpl.
    + destruct x; try discriminate Ex. simpl. split; intros Hr.
      * destruct (IHt Hr) as (parts & ->). simpl.
        exists (split "/" s ++ parts)%list. now rewrite map_app.
      * destruct (IHf Hr) as (y & Hy & Hs & ->). exists y. simpl. auto.
    + split; [discriminate|]. intros _. exists x.
      rewrite (str_path_leaf_not_string x Hx Ex). simpl. auto.
Qed.

Lemma str_path_cases (data : pyval) :
  (path_like data = true -> exists parts, str_path data = Ok (map PStr parts))
  /\ (path_like data = false ->
      exists x, In x (flatten_item data) /\ is_str x = false
                /\ str_path data = Raise (UnknownObject x "str_path")).
Proof.
  rewrite str_path_via_leaves. apply concat_map_str_path.
  apply FlattenSpec.flatten_item_leaves.
Qed.

(** [str_path] accepts exactly the path specifications: it returns strings
    when every leaf of its argument is a string, and otherwise raises the
    unrecognised-input error for a leaf that is not a string. *)
Theorem str_path_accepts (data : pyval) :
  (path_like data = true -> exists parts, str_path data = Ok (map PStr parts))
  /\ (path_like data = false ->
      exists x, In x (flatten_item data) /\ is_str x = false
                /\ str_path data = Raise (UnknownObject x "str_path")).
Proof.
  rewrite str_path_via_leaves. apply concat_map_str_path.
  apply FlattenSpec.flatten_item_leaves.
Qed.

Lemma str_path_accepts_witness :
  path_like (PList [PStr "a"; PList [PInt 7; PStr "b"]]) = false
  /\ exists x, In x (flatten_item (PList [PStr "a"; PList [PInt 7; PStr "b"]]))
               /\ is_str x = false
               /\ str_path (PList [PStr "a"; PList [PInt 7; PStr "b"]])
                  = Raise (UnknownObject x "str_path").
Proof.
  split; [reflexivity|].
  exact (proj2 (str_path_accepts (PList [PStr "a"; PList [PInt 7; PStr "b"]])) eq_refl).
Defined.

(** What [resolve] returns for an input that is no [ResourceLocation]. *)
Lemma resolve_text (default data r : pyval) :
  is_ResourceLocation data = false ->
  resolve default data = Ok r ->
  exists joined,
    joined_path data = Ok joined
    /\ ((exists d p, joined = d ++ ":" ++ p /\ str_contains ":" d = false
                     /\ r = PResLoc (PStr d) (PStr p))
        \/ (str_contains ":" joined = false /\ r = PResLoc default (PStr joined))).
Proof.
  intros Hr H. unfold resolve in H. rewrite Hr in H.
  destruct (joined_path data) as [joined|] eqn:Ej; simpl in H; [|discriminate].
  exists joined. split; [reflexivity|]. unfold str_contains in *.
  destruct (str_index ":" joined) as [i|] eqn:Ei.
  - left. destruct (str_index_split _ _ _ Ei) as (d & p & -> & Hd & <-).
    rewrite slice_to_app, slice_from_after in H. injection H as <-.
    now exists d, p.
  - right. now injection H as <-.
Qed.

Lemma resolve_total (default data : pyval) (joined : string) :
  joined_path data = Ok joined -> exists r, resolve default data = Ok r.
Proof.
  intros Hj. unfold resolve. destruct (is_ResourceLocation data); [now eexists|].
  rewrite Hj. simpl. unfold str_contains.
  destruct (str_index ":" joined); now eexists.
Qed.


Lemma resource_location_inv (elements : list pyval) (r : pyval) :
  resource_location elements = Ok r ->
  exists default data,
    elements = call default data /\ resolve (default_domain default) data = Ok r.
Proof.
  destruct elements as [|a [|b [|c rest]]]; try discriminate; intros H.
  - now exists None, a.
  - now exists (Some a), b.
Qed.

(** [resource_location] accepts exactly one or two arguments whose last is
    a [ResourceLocation] or a path specification; it raises nothing but its
    arity error and the unrecognised-input error of [str_path]. *)
Theorem resource_location_accepts (elements : list pyval) :
  ((exists r, resource_location elements = Ok r) <->
   exists default data,
     elements = call default data
     /\ (is_ResourceLocation data = true \/ path_like data = true))
  /\ (forall e, resource_location elements = Raise e ->
                e = ArityError \/ exists x, e = UnknownObject x "str_path").
Proof.
  split; [split|].
  - intros (r & H). destruct (resource_location_inv _ _ H) as (default & data & -> & Hres).
    exists default, data. split; [reflexivity|].
    destruct (is_ResourceLocation data) eqn:Hr; [now left | right].
    destruct (resolve_text _ _ _ Hr Hres) as (joined & Hj & _).
    unfold joined_path in Hj.
    destruct (path_like data) eqn:Hp; [reflexivity|].
    destruct (proj2 (str_path_cases data) Hp) as (x & _ & _ & Hx).
    rewrite Hx in Hj. discriminate Hj.
  - intros (default & data & -> & H). rewrite ResolverSpec.resource_location_call.
    destruct H as [Hr | Hp].
    + exists data. unfold resolve. now rewrite Hr.
    + destruct (proj1 (str_path_cases data) Hp) as (parts & Hparts).
      destruct (ResolverSpec.joined_path_total _ _ Hparts) as (joined & Hj).
      apply (resolve_total _ _ _ Hj).
  - assert (Hres : forall default data e, resolve default data = Raise e ->
                                          exists x, e = UnknownObject x "str_path").
    { intros default data e H. unfold resolve in H.
      destruct (is_ResourceLocation data); [discriminate|].
      destruct (joined_path data) as [joined|e'] eqn:Ej; simpl in H.
      - unfold str_contains in H. destruct (str_index ":" joined); discriminate.
      - injection H as <-. unfold joined_path in Ej.
        destruct (path_like data) eqn:Hp.
        + destruct (proj1 (str_path_cases data) Hp) as (parts & Hparts).
          rewrite Hparts in Ej. simpl in Ej.
          rewrite ResolverSpec.str_join_strings in Ej. discriminate.
        + destruct (proj2 (str_path_cases data) Hp) as (x & _ & _ & Hx).
          rewrite Hx in Ej. injection Ej as <-. now exists x. }
    intros e H. destruct elements as [|a [|b [|c rest]]]; simpl in H.
    + left. now injection H as <-.
    + right. now apply (Hres _ _ _ H).
    + right. now apply (Hres _ _ _ H).
    + left. now injection H as <-.
Qed.



(** [domain_path_parts] resolves as [resource_location] does, for an input
    that is no [ResourceLocation]: it returns the same domain, and the
    segments of the resolved path, whose ['/']-join gives the path back. *)
Theorem domain_path_parts_resolves (name_parts default_domain dom : pyval)
    (path : string) :
  is_ResourceLocation name_parts = false ->
  resource_location [default_domain; name_parts] = Ok (PResLoc dom (PStr path)) ->
  domain_path_parts name_parts default_domain = Ok (dom, map PStr (split "/" path))
  /\ str_join "/" (map PStr (split "/" path)) = Ok path.
Proof.
  intros Hr H. split; [|now rewrite ResolverSpec.str_join_strings, join_split].
  simpl in H. destruct (resolve_text _ _ _ Hr H) as (joined & Hj & Hcase).
  unfold domain_path_parts. rewrite Hj. simpl bind.
  destruct Hcase as [(d & p & -> & Hd & [= -> ->]) | (Hc & [= -> ->])].
  - unfold str_contains. change (":" ++ p) with (String ":" p).
    rewrite (str_index_first _ _ _ Hd).
    now rewrite slice_to_app, slice_from_after.
  - now rewrite Hc.
Qed.

Lemma domain_path_parts_resolves_witness :
  (is_ResourceLocation (PList [PStr "mod:block"; PStr "ore"]) = false
   /\ resource_location [PStr "other"; PList [PStr "mod:block"; PStr "ore"]]
      = Ok (PResLoc (PStr "mod") (PStr "block/ore")))
  /\ domain_path_parts (PList [PStr "mod:block"; PStr "ore"]) (PStr "other")
     = Ok (PStr "mod", [PStr "block"; PStr "ore"])
  /\ str_join "/" [PStr "block"; PStr "ore"] = Ok "block/ore".
Proof.
  split; [split; reflexivity|].
  exact (domain_path_parts_resolves (PList [PStr "mod:block"; PStr "ore"])
           (PStr "other") (PStr "mod") "block/ore" eq_refl eq_refl).
Defined.

(** The text that [simple_resource_location] returns resolves back to the
    location it was made from, provided the path has no [:] of its own
    when the short form (the bare path) is produced. *)
Theorem simple_resource_location_round_trip (format_s : pyval -> string)
    (data dom : pyval) (path : string) (use_minecraft_domain : bool) :
  (forall s, format_s (PStr s) = s) ->
  is_ResourceLocation data = false ->
  resource_location [PStr "minecraft"; data] = Ok (PResLoc dom (PStr path)) ->
  (eq_str dom "minecraft" && negb use_minecraft_domain = true ->
   str_contains ":" path = false) ->
  exists text,
    simple_resource_location format_s data use_minecraft_domain = Ok (PStr text)
    /\ resource_location [PStr text] = Ok (PResLoc dom (PStr path)).
Proof.
  intros Hfmt Hr H Hshort. unfold simple_resource_location. rewrite H. simpl bind.
  simpl in H. destruct (resolve_text _ _ _ Hr H) as (joined & Hj & Hcase).
  assert (Hdom : exists d, dom = PStr d /\ str_contains ":" d = false).
  { destruct Hcase as [(d & p & _ & Hd & [= -> _]) | (_ & [= -> _])];
      eexists; split; eauto. }
  destruct Hdom as (d & -> & Hd).
  destruct (eq_str (PStr d) "minecraft" && negb use_minecraft_domain) eqn:E.
  - exists path. split; [reflexivity|].
    apply andb_true_iff in E. destruct E as (E & _). simpl in E.
    apply String.eqb_eq in E. subst d.
    apply (ResolverSpec.resolve_plain (PStr "minecraft") (PStr path) path);
      [reflexivity | apply ResolverSpec.joined_path_string | now apply Hshort].
  - exists (d ++ ":" ++ path). rewrite !Hfmt. split; [reflexivity|].
    apply (ResolverSpec.resolve_colon (PStr "minecraft") (PStr (d ++ ":" ++ path)) d path);
      [reflexivity | apply ResolverSpec.joined_path_string | exact Hd].
Qed.

Lemma simple_resource_location_round_trip_witness :
  ((forall s, (fun v => match v with PStr s' => s' | _ => "" end) (PStr s) = s)
   /\ is_ResourceLocation (PStr "minecraft:stone") = false
   /\ resource_location [PStr "minecraft"; PStr "minecraft:stone"]
      = Ok (PResLoc (PStr "minecraft") (PStr "stone"))
   /\ (eq_str (PStr "minecraft") "minecraft" && negb false = true ->
       str_contains ":" "stone" = false))
  /\ exists text,
       simple_resource_location (fun v => match v with PStr s' => s' | _ => "" end)
         (PStr "minecraft:stone") false = Ok (PStr text)
       /\ resource_location [PStr text] = Ok (PResLoc (PStr "minecraft") (PStr "stone")).
Proof.
  split; [repeat split|].
  exact (simple_resource_location_round_trip
           (fun v => match v with PStr s' => s' | _ => "" end)
           (PStr "minecraft:stone") (PStr "minecraft") "stone" false
           (fun s => eq_refl) eq_refl eq_refl (fun _ => eq_refl)).
Defined.

(** [ResourceLocation.join] and [resource_location] are inverse to each
    other when the domain has no [:]: the full form [domain:prefix+path]
    resolves to the domain and the prefixed path, and so does the simple
    form of a ['minecraft'] location whose prefixed path has no [:]. *)
Theorem join_round_trip (self : TypeDefinitions.ResourceLocation) (prefix : string) :
  str_contains ":" (TypeDefinitions.domain self) = false ->
  resource_location [PStr (TypeDefinitions.join self prefix false)]
  = Ok (PResLoc (PStr (TypeDefinitions.domain self))
                (PStr (prefix ++ TypeDefinitions.path self)))
  /\ (str_contains ":" (prefix ++ TypeDefinitions.path self) = false ->
      resource_location [PStr (TypeDefinitions.join self prefix true)]
      = Ok (PResLoc (PStr (TypeDefinitions.domain self))
                    (PStr (prefix ++ TypeDefinitions.path self)))).
Proof.
  intros Hd.
  assert (full : resolve (PStr "minecraft")
                   (PStr (TypeDefinitions.domain self ++ ":" ++ prefix
                          ++ TypeDefinitions.path self))
                 = Ok (PResLoc (PStr (TypeDefinitions.domain self))
                               (PStr (prefix ++ TypeDefinitions.path self)))).
  { apply ResolverSpec.resolve_colon;
      [reflexivity | apply ResolverSpec.joined_path_string | exact Hd]. }
  split; [exact full|]. intros Hp. unfold TypeDefinitions.join. simpl andb.
  destruct (String.eqb (TypeDefinitions.domain self) "minecraft") eqn:E; [|exact full].
  apply String.eqb_eq in E. rewrite E. simpl.
  apply ResolverSpec.resolve_plain;
    [reflexivity | apply ResolverSpec.joined_path_string | exact Hp].
Qed.

Lemma join_round_trip_witness :
  str_contains ":" "minecraft" = false
  /\ resource_location
       [PStr (TypeDefinitions.join
                {| TypeDefinitions.domain := "minecraft"; TypeDefinitions.path := "stone" |}
                "block/" false)]
     = Ok (PResLoc (PStr "minecraft") (PStr "block/stone")).
Proof.
  split; [reflexivity|].
  exact (proj1 (join_round_trip
                  {| TypeDefinitions.domain := "minecraft"; TypeDefinitions.path := "stone" |}
                  "block/" eq_refl)).
Defined.

End IdentifierFacts.

(** ** Documents as they are written *)

Module DocumentFacts.
Import Py Utils Spec DictFacts.
Local Open Scope string_scope.

Lemma stripped_list (l : list pyval) : stripped (PList l) <-> Forall stripped l.
Proof.
  induction l as [|x r IH]; simpl.
  - split; [constructor | trivial].
  - simpl in IH. rewrite IH. split.
    + intros (Hx & Hr). now constructor.
    + intros H. inversion H. now split.
Qed.

Lemma stripped_dict (d : dict) :
  stripped (PDict d) <-> NoDup (keys d) /\ Forall (fun kv => stripped (snd kv)) d.
Proof.
  simpl. apply and_iff_compat_l. induction d as [|kv r IH].
  - split; [constructor | trivial].
  - rewrite IH. split.
    + intros (Hx & Hr). now constructor.
    + intros H. inversion H. now split.
Qed.

Lemma stripped_not_None (v : pyval) : stripped v -> is_None v = false.
Proof. destruct v; simpl; tauto. Qed.

Lemma filter_mapM_ok_Forall {A B} (keep : A -> bool) (f : A -> result B)
    (Q : B -> Prop) (l : list A) :
  Forall (fun x => forall y, f x = Ok y -> Q y) l ->
  forall ys, filter_mapM keep f l = Ok ys -> Forall Q ys.
Proof.
  induction 1 as [|x r Hx _ IH]; simpl; intros ys Hys.
  - injection Hys as <-. constructor.
  - destruct (keep x); [|now apply IH].
    destruct (f x) as [y|] eqn:E; simpl in Hys; [|discriminate].
    destruct (filter_mapM keep f r) as [zs|]; simpl in Hys; [|discriminate].
    injection Hys as <-. constructor; [now apply Hx | now apply IH].
Qed.

Lemma filter_mapM_identity {A} (keep : A -> bool) (f : A -> result A) (l : list A) :
  Forall (fun x => keep x = true /\ f x = Ok x) l -> filter_mapM keep f l = Ok l.
Proof.
  induction 1 as [|x r (Hk & Hx) _ IH]; simpl; [reflexivity|].
  now rewrite Hk, Hx, IH.
Qed.

(** What [del_none] returns is stripped. *)
Lemma del_none_stripped (v v' : pyval) : del_none v = Ok v' -> stripped v'.
Proof.
  revert v'.
  assert (each : forall items,
             Forall (fun x => forall y, del_none x = Ok y -> stripped y) items ->
             forall v', (rs <- filter_mapM (fun x => negb (is_None x)) del_none items ;;
                         Ok (PList rs)) = Ok v' -> stripped v').
  { intros items IH v' H.
    destruct (filter_mapM _ del_none items) as [rs|] eqn:E; simpl in H; [|discriminate].
    injection H as <-. apply stripped_list.
    exact (filter_mapM_ok_Forall _ _ _ _ IH rs E). }
  induction v as [| b | z | s | l IH | d p IHd IHp | d IH] using pyval_ind;
    intros v' H; try discriminate H; try (injection H as <-; exact I).
  - exact (each l IH v' H).
  - apply (each [d; p]); [repeat constructor; assumption | exact H].
  - simpl in H.
    destruct (filter_mapM _ _ d) as [items|] eqn:E; simpl in H; [|discriminate].
    injection H as <-. apply stripped_dict. split.
    + apply dict_update_NoDup. constructor.
    + apply (AbsentFieldSpec.dict_update_values stripped); [|constructor].
      refine (filter_mapM_ok_Forall _ _ (fun kv => stripped (snd kv)) d _ _ E).
      eapply Forall_impl; [|exact IH]. intros [k x] Hx [k' y] Hy. simpl in *.
      destruct (del_none x) as [x'|] eqn:Ex; simpl in Hy; [|discriminate].
      injection Hy as _ <-. now apply Hx.
Qed.

(** [del_none] leaves a stripped value as it is. *)
Lemma del_none_of_stripped (v : pyval) : stripped v -> del_none v = Ok v.
Proof.
  induction v as [| b | z | s | l IH | d p IHd IHp | d IH] using pyval_ind;
    intros H; try reflexivity; try contradiction.
  - apply stripped_list in H. simpl.
    rewrite filter_mapM_identity; [reflexivity|].
    apply Forall_forall. intros x Hx.
    pose proof (proj1 (Forall_forall _ _) H x Hx) as Hs.
    pose proof (proj1 (Forall_forall _ _) IH x Hx Hs) as Hd.
    now rewrite (stripped_not_None x Hs).
  - apply stripped_dict in H. destruct H as (Hnd & Hall). simpl.
    rewrite filter_mapM_identity.
    + simpl. now rewrite dict_of_nodup.
    + apply Forall_forall. intros [k x] Hx.
      pose proof (proj1 (Forall_forall _ _) Hall _ Hx) as Hs.
      pose proof (proj1 (Forall_forall _ _) IH _ Hx Hs) as Hd.
      simpl in *. now rewrite (stripped_not_None x Hs), Hd.
Qed.

(** [del_none] raises for [None] itself and for nothing else, and what it
    returns holds no [None] at any depth. *)
Theorem del_none_total (v : pyval) :
  (del_none v = Raise NonePassed <-> v = PNone)
  /\ (forall e, del_none v = Raise e -> e = NonePassed)
  /\ (forall v', del_none v = Ok v' -> none_free v' = true).
Proof.
  destruct (is_None v) eqn:E.
  - destruct v; try discriminate E. repeat split; try discriminate.
    intros e H. now injection H as <-.
  - destruct (AbsentFieldSpec.del_none_none_free v E) as (v' & Hv & Hfree).
    rewrite Hv. repeat split; try discriminate.
    + intros ->. discriminate E.
    + intros v'' H. now injection H as <-.
Qed.

(** [del_none] is idempotent: stripping what has been stripped returns it
    unchanged. *)
Theorem del_none_idempotent (v v' : pyval) :
  del_none v = Ok v' -> del_none v' = Ok v'.
Proof. intros H. apply del_none_of_stripped. exact (del_none_stripped v v' H). Qed.

Lemma del_none_idempotent_witness :
  del_none (PList [PNone; PDict [("a", PNone); ("b", PResLoc (PStr "x") PNone)]])
  = Ok (PList [PDict [("b", PList [PStr "x"])]])
  /\ del_none (PList [PDict [("b", PList [PStr "x"])]])
     = Ok (PList [PDict [("b", PList [PStr "x"])]]).
Proof.
  split; [reflexivity|].
  exact (del_none_idempotent
           (PList [PNone; PDict [("a", PNone); ("b", PResLoc (PStr "x") PNone)]])
           _ eq_refl).
Defined.

Lemma dict_update_head (items acc : dict) (k : string) (v : pyval) :
  ~ In k (keys items) ->
  exists rest, dict_update ((k, v) :: acc) items = (k, v) :: rest.
Proof.
  unfold dict_update. revert acc. induction items as [|[k' v'] r IH]; simpl; intros acc H.
  - now exists acc.
  - destruct (String.eqb k k') eqn:E.
    + apply String.eqb_eq in E. exfalso. auto.
    + apply IH. tauto.
Qed.

Lemma del_none_items_keys (d items : dict) :
  filter_mapM (fun kv : string * pyval => negb (is_None (snd kv)))
    (fun kv => v <- del_none (snd kv) ;; Ok (fst kv, v)) d = Ok items ->
  incl (keys items) (keys d).
Proof.
  revert items. induction d as [|[k x] r IH]; simpl; intros items H.
  - injection H as <-. apply incl_refl.
  - destruct (negb (is_None x)).
    + destruct (del_none x); simpl in H; [|discriminate].
      destruct (filter_mapM _ _ r) as [items'|]; simpl in H; [|discriminate].
      injection H as <-. simpl. intros y [<- | Hy]; [now left | right].
      now apply (IH items').
    + apply incl_tl. now apply IH.
Qed.

(** Every document [write] produces from data without a ["__comment__"]
    key of its own carries the generation marker as its first entry. *)
Theorem write_document_marker (d : dict) :
  dict_lookup d "__comment__" = None ->
  exists rest,
    write_document (PDict d) = Ok (PDict (("__comment__", generated_marker) :: rest)).
Proof.
  intros Habs. apply dict_lookup_None_keys in Habs.
  unfold write_document.
  change (dict_of (("__comment__", PStr "This file was automatically created by mcresources") :: d))
    with (dict_update [("__comment__", generated_marker)] d).
  destruct (dict_update_head d [] "__comment__" generated_marker Habs) as (rest0 & E0).
  assert (Hnd : NoDup (keys (("__comment__", generated_marker) :: rest0))).
  { rewrite <- E0. apply dict_update_NoDup. repeat constructor. simpl. tauto. }
  rewrite E0. simpl in Hnd. apply NoDup_cons_iff in Hnd. destruct Hnd as (Hfresh & _).
  destruct (AbsentFieldSpec.del_none_none_free (PDict rest0) eq_refl) as (v0 & Hv0 & _).
  simpl in Hv0 |- *.
  destruct (filter_mapM _ _ rest0) as [items|] eqn:Ei; simpl in Hv0; [|discriminate].
  simpl.
  destruct (dict_update_head items [] "__comment__" generated_marker) as (rest & E).
  - intros Hin. apply Hfresh. exact (del_none_items_keys _ _ Ei _ Hin).
  - exists rest. rewrite <- E. reflexivity.
Qed.

Lemma write_document_marker_witness :
  dict_lookup [("parent", PStr "block/cube_all"); ("textures", PNone)] "__comment__" = None
  /\ exists rest,
       write_document (PDict [("parent", PStr "block/cube_all"); ("textures", PNone)])
       = Ok (PDict (("__comment__", generated_marker) :: rest)).
Proof.
  split; [reflexivity|].
  exact (write_document_marker [("parent", PStr "block/cube_all"); ("textures", PNone)]
           eq_refl).
Defined.

End DocumentFacts.

(** ** More on the loot normalisers *)

Module LootFacts.
Import Py Utils Spec.
Local Open Scope string_scope.

Lemma is_dict_leaf (x : pyval) : is_dict x = true -> is_leaf x.
Proof. destruct x; simpl; intros H; try discriminate; reflexivity. Qed.

Lemma is_entry_dict (x : pyval) : is_entry x -> is_dict x = true.
Proof. now intros (m & t & -> & _). Qed.

Lemma is_pool_dict (x : pyval) : is_pool x -> is_dict x = true.
Proof. now intros (m & r & e & c & -> & _). Qed.

Lemma loot_condition_list_leaf (v : pyval) (out : list pyval) :
  is_leaf v -> loot_condition_list v = Ok out -> Forall (fun x => is_dict x = true) out.
Proof.
  destruct v; intros Hv H; try discriminate; injection H as <-; repeat constructor.
Qed.

Lemma loot_function_list_leaf (v : pyval) (out : list pyval) :
  is_leaf v -> loot_function_list v = Ok out -> Forall (fun x => is_dict x = true) out.
Proof.
  destruct v; intros Hv H; try discriminate; injection H as <-; repeat constructor.
Qed.

Lemma loot_entry_list_leaf (v : pyval) (out : list pyval) :
  is_leaf v -> loot_entry_list v = Ok out -> Forall is_entry out.
Proof.
  destruct v as [| | | s | | | d]; intros Hv H; try discriminate.
  - simpl in H. destruct (String.eqb (slice 0 4 s) "tag!");
      injection H as <-; repeat constructor; eexists _, _; split; reflexivity.
  - rewrite AbsentFieldSpec.loot_entry_list_mapping in H. split_binds H.
    injection H as <-. repeat constructor. eexists _, _. split; reflexivity.
Qed.

Lemma loot_pool_list_leaf (loot_type : string) (v : pyval) (out : list pyval) :
  is_leaf v -> loot_pool_list v loot_type = Ok out -> Forall is_pool out.
Proof.
  destruct v as [| | | s | | | d]; intros Hv H; try discriminate.
  - simpl in H. split_binds H. injection H as <-. repeat constructor.
    eexists _, _, _, _. repeat split; reflexivity.
  - rewrite AbsentFieldSpec.loot_pool_list_mapping in H. split_binds H.
    injection H as <-. repeat constructor.
    eexists _, _, _, _. repeat split; reflexivity.
Qed.

(** The loot normalisers do not see the nesting of their input: a nested
    sequence of conditions, functions, entries or pools is normalised
    exactly as its flattening is, errors included. *)
Theorem loot_lists_ignore_nesting (l : list pyval) (loot_type : string) :
  loot_condition_list (PList l) = loot_condition_list (PList (flatten_list l))
  /\ loot_function_list (PList l) = loot_function_list (PList (flatten_list l))
  /\ loot_entry_list (PList l) = loot_entry_list (PList (flatten_list l))
  /\ loot_pool_list (PList l) loot_type
     = loot_pool_list (PList (flatten_list l)) loot_type.
Proof.
  split; [|split; [|split]].
  - apply (SequenceFacts.normaliser_flatten loot_condition_list
             (fun x => is_dict x = true) is_dict_leaf);
      [reflexivity | reflexivity | apply loot_condition_list_leaf].
  - apply (SequenceFacts.normaliser_flatten loot_function_list
             (fun x => is_dict x = true) is_dict_leaf);
      [reflexivity | reflexivity | apply loot_function_list_leaf].
  - apply (SequenceFacts.normaliser_flatten loot_entry_list is_entry);
      [intros x Hx; apply is_dict_leaf, is_entry_dict, Hx
      | reflexivity | reflexivity | apply loot_entry_list_leaf].
  - apply (SequenceFacts.normaliser_flatten (fun v => loot_pool_list v loot_type) is_pool);
      [intros x Hx; apply is_dict_leaf, is_pool_dict, Hx
      | reflexivity | reflexivity | apply loot_pool_list_leaf].
Qed.

(** Whatever the nesting of the input, what a loot normaliser returns is a
    flat list of mappings: conditions and functions are mappings, every
    entry has a type, and every pool is named ['loot_pool'] and has rolls,
    entries and conditions. *)
Theorem loot_lists_are_flat (data : pyval) (out : list pyval) :
  (loot_condition_list data = Ok out -> Forall (fun x => is_dict x = true) out)
  /\ (loot_function_list data = Ok out -> Forall (fun x => is_dict x = true) out)
  /\ (loot_entry_list data = Ok out -> Forall is_entry out)
  /\ (forall loot_type, loot_pool_list data loot_type = Ok out -> Forall is_pool out).
Proof.
  split; [|split; [|split]].
  - apply (SequenceFacts.normaliser_Q loot_condition_list
             (fun x => is_dict x = true) is_dict_leaf);
      [reflexivity | reflexivity | apply loot_condition_list_leaf].
  - apply (SequenceFacts.normaliser_Q loot_function_list
             (fun x => is_dict x = true) is_dict_leaf);
      [reflexivity | reflexivity | apply loot_function_list_leaf].
  - apply (SequenceFacts.normaliser_Q loot_entry_list is_entry);
      [intros x Hx; apply is_dict_leaf, is_entry_dict, Hx
      | reflexivity | reflexivity | apply loot_entry_list_leaf].
  - intros loot_type.
    apply (SequenceFacts.normaliser_Q (fun v => loot_pool_list v loot_type) is_pool);
      [intros x Hx; apply is_dict_leaf, is_pool_dict, Hx
      | reflexivity | reflexivity | apply loot_pool_list_leaf].
Qed.

Lemma loot_lists_are_flat_witness :
  loot_pool_list (PList [PList [PStr "minecraft:dirt"]; PList [PList [PStr "tag!logs"]]])
    "block"
  = Ok [PDict [("name", PStr "loot_pool"); ("rolls", PInt 1);
               ("entries", PList [PDict [("type", PStr "minecraft:item");
                                         ("name", PStr "minecraft:dirt")]]);
               ("conditions",
                PList [PDict [("condition", PStr "minecraft:survives_explosion")]])];
        PDict [("name", PStr "loot_pool"); ("rolls", PInt 1);
               ("entries", PList [PDict [("type", PStr "minecraft:tag");
                                         ("name", PStr "logs")]]);
               ("conditions",
                PList [PDict [("condition", PStr "minecraft:survives_explosion")]])]]
  /\ Forall is_pool
       [PDict [("name", PStr "loot_pool"); ("rolls", PInt 1);
               ("entries", PList [PDict [("type", PStr "minecraft:item");
                                         ("name", PStr "minecraft:dirt")]]);
               ("conditions",
                PList [PDict [("condition", PStr "minecraft:survives_explosion")]])];
        PDict [("name", PStr "loot_pool"); ("rolls", PInt 1);
               ("entries", PList [PDict [("type", PStr "minecraft:tag");
                                         ("name", PStr "logs")]]);
               ("conditions",
                PList [PDict [("condition", PStr "minecraft:survives_explosion")]])]].
Proof.
  split; [reflexivity|].
  exact (proj2 (proj2 (proj2 (loot_lists_are_flat
           (PList [PList [PStr "minecraft:dirt"]; PList [PList [PStr "tag!logs"]]]) _)))
           "block" eq_refl).
Defined.

(** A pool given as a mapping.  A key the mapping leaves out gets its
    default: one roll, the default conditions of the loot type, and, for
    ['entries'], the mapping itself as it was given.  Conditions that the
    mapping does give replace the default conditions: a ['block'] pool
    with conditions of its own gets no "survives explosion" condition. *)
Theorem loot_pool_list_mapping_fields (d : dict) (loot_type : string)
    (out : list pyval) :
  loot_pool_list (PDict d) loot_type = Ok out ->
  exists m rolls entries conditions,
    out = [PDict m]
    /\ dict_lookup m "rolls" = Some rolls
    /\ dict_lookup m "entries" = Some entries
    /\ dict_lookup m "conditions" = Some conditions
    /\ (dict_lookup d "rolls" = None -> rolls = PInt 1)
    /\ (dict_lookup d "entries" = None -> entries = PDict d)
    /\ (dict_lookup d "conditions" = None ->
        conditions = loot_default_conditions loot_type)
    /\ (forall given, dict_lookup d "conditions" = Some given ->
        exists cs, loot_condition_list given = Ok cs /\ conditions = PList cs).
Proof.
  intros H. rewrite AbsentFieldSpec.loot_pool_list_mapping in H.
  destruct (dict_get d "rolls" (PInt 1) None) as [rolls|] eqn:Er;
    simpl in H; [|discriminate].
  destruct (dict_get d "bonus_rolls" PNone None) as [bonus|] eqn:Eb;
    simpl in H; [|discriminate].
  destruct (dict_get d "entries" (PDict d) (Some (listed loot_entry_list)))
    as [entries|] eqn:Ee; simpl in H; [|discriminate].
  destruct (dict_get d "conditions" (loot_default_conditions loot_type)
              (Some (listed loot_condition_list))) as [conditions|] eqn:Ec;
    simpl in H; [|discriminate].
  destruct (dict_get d "functions" PNone (Some (listed loot_function_list)))
    as [functions|] eqn:Ef; simpl in H; [|discriminate].
  injection H as <-. eexists _, rolls, entries, conditions.
  split; [reflexivity|]. do 3 (split; [reflexivity|]).
  unfold dict_get in Er, Ee, Ec. repeat split.
  - intros Hn. rewrite Hn in Er. now injection Er as <-.
  - intros Hn. rewrite Hn in Ee. now injection Ee as <-.
  - intros Hn. rewrite Hn in Ec. now injection Ec as <-.
  - intros given Hg. rewrite Hg in Ec. unfold listed in Ec.
    destruct (loot_condition_list given) as [cs|]; simpl in Ec; [|discriminate].
    injection Ec as <-. now exists cs.
Qed.

Lemma loot_pool_list_mapping_fields_witness :
  loot_pool_list (PDict [("conditions", PList [])]) "block"
  = Ok [PDict [("name", PStr "loot_pool"); ("rolls", PInt 1); ("bonus_rolls", PNone);
               ("entries", PDict [("conditions", PList [])]);
               ("conditions", PList []); ("functions", PNone)]]
  /\ exists m rolls entries conditions,
       [PDict [("name", PStr "loot_pool"); ("rolls", PInt 1); ("bonus_rolls", PNone);
               ("entries", PDict [("conditions", PList [])]);
               ("conditions", PList []); ("functions", PNone)]] = [PDict m]
       /\ dict_lookup m "rolls" = Some rolls
       /\ dict_lookup m "entries" = Some entries
       /\ dict_lookup m "conditions" = Some conditions
       /\ (dict_lookup [("conditions", PList [])] "rolls" = None -> rolls = PInt 1)
       /\ (dict_lookup [("conditions", PList [])] "entries" = None ->
           entries = PDict [("conditions", PList [])])
       /\ (dict_lookup [("conditions", PList [])] "conditions" = None ->
           conditions = loot_default_conditions "block")
       /\ (forall given,
             dict_lookup [("conditions", PList [])] "conditions" = Some given ->
             exists cs, loot_condition_list given = Ok cs /\ conditions = PList cs).
Proof.
  split; [reflexivity|].
  exact (loot_pool_list_mapping_fields [("conditions", PList [])] "block" _ eq_refl).
Defined.

End LootFacts.

(** ** The blockstate tables as rules *)

Module TableFacts.
Import Py Utils Spec.
Local Open Scope string_scope.

(** The stairs table follows one rule for all its 40 entries: the model is
    chosen by the shape alone, the top half is the model turned upside
    down ([x] = 180), the turn [y] is the angle of the facing plus the turn
    of the shape in that half, modulo 360 and left out when it is 0, and
    [uvlock] is set exactly for the entries that are turned. *)
Theorem stairs_variants_rule (stairs stairs_inner stairs_outer : pyval)
    (facing half shape : string) :
  In facing facings -> In half halves -> In shape shapes ->
  dict_lookup (stairs_variants stairs stairs_inner stairs_outer)
    (stairs_key facing half shape)
  = Some (stairs_entry stairs stairs_inner stairs_outer facing half shape).
Proof.
  unfold facings, halves, shapes. simpl In. intros Hf Hh Hs.
  repeat match goal with
         | H : _ \/ _ |- _ => destruct H as [<- | H]
         | H : False |- _ => destruct H
         end; reflexivity.
Qed.

Lemma stairs_variants_rule_witness :
  (In "north" facings /\ In "top" halves /\ In "outer_left" shapes)
  /\ dict_lookup (stairs_variants (PStr "s") (PStr "i") (PStr "o"))
       "facing=north,half=top,shape=outer_left"
     = Some (PDict [("model", PStr "o"); ("x", PInt 180); ("y", PInt 270);
                    ("uvlock", PBool true)]).
Proof.
  assert (Hf : In "north" facings) by (simpl; auto).
  assert (Hh : In "top" halves) by (simpl; auto).
  assert (Hs : In "outer_left" shapes) by (simpl; auto).
  split; [repeat split; assumption|].
  exact (stairs_variants_rule (PStr "s") (PStr "i") (PStr "o")
           "north" "top" "outer_left" Hf Hh Hs).
Defined.

(** The fence gate table has 16 keys and follows one rule: every
    combination of a facing and the two flags is a key, the facing alone
    decides the turn [y] (south 0, west 90, north 180, east 270, left out
    when 0), and the flags alone decide which of the four models is used. *)
Theorem fence_gate_variants_rule
    (fence_gate fence_gate_open fence_gate_wall fence_gate_wall_open : pyval) :
  List.length (keys (fence_gate_variants fence_gate fence_gate_open fence_gate_wall
                       fence_gate_wall_open)) = 16
  /\ NoDup (keys (fence_gate_variants fence_gate fence_gate_open fence_gate_wall
                    fence_gate_wall_open))
  /\ (forall facing in_wall open,
        In facing facings -> In in_wall flags -> In open flags ->
        dict_lookup (fence_gate_variants fence_gate fence_gate_open fence_gate_wall
                       fence_gate_wall_open) (gate_key facing in_wall open)
        = Some (gate_entry fence_gate fence_gate_open fence_gate_wall
                  fence_gate_wall_open facing in_wall open)).
Proof.
  split; [reflexivity|]. split.
  - change (keys (fence_gate_variants fence_gate fence_gate_open fence_gate_wall
                    fence_gate_wall_open))
      with (keys (fence_gate_variants PNone PNone PNone PNone)).
    apply StairsSpec.nodup_fixed_NoDup. vm_compute. reflexivity.
  - unfold facings, flags. simpl In. intros facing in_wall open Hf Hw Ho.
    repeat match goal with
           | H : _ \/ _ |- _ => destruct H as [<- | H]
           | H : False |- _ => destruct H
           end; reflexivity.
Qed.

Lemma fence_gate_variants_rule_witness :
  (In "west" facings /\ In "true" flags /\ In "false" flags)
  /\ dict_lookup (fence_gate_variants (PStr "g") (PStr "go") (PStr "gw") (PStr "gwo"))
       "facing=west,in_wall=true,open=false"
     = Some (PDict [("model", PStr "gw"); ("uvlock", PBool true); ("y", PInt 90)]).
Proof.
  assert (Hf : In "west" facings) by (simpl; auto).
  assert (Ht : In "true" flags) by (simpl; auto).
  assert (Hn : In "false" flags) by (simpl; auto).
  split; [repeat split; assumption|].
  exact (proj2 (proj2 (fence_gate_variants_rule (PStr "g") (PStr "go") (PStr "gw")
                         (PStr "gwo")))
           "west" "true" "false" Hf Ht Hn).
Defined.

End TableFacts.

(** ** Item stacks, textures, multipart parts and language entries *)

Module ItemFacts.
Import Py Utils Spec DictFacts.
Local Open Scope string_scope.

Lemma mapM_Forall2 {A B} (f : A -> result B) (l : list A) (ys : list B) :
  mapM f l = Ok ys <-> Forall2 (fun x y => f x = Ok y) l ys.
Proof.
  revert ys. induction l as [|x r IH]; simpl; intros ys.
  - split; [intros [= <-]; constructor | intros H; now inversion H].
  - split.
    + destruct (f x) as [y|] eqn:E; simpl; [|discriminate].
      destruct (mapM f r) as [zs|]; simpl; [|discriminate].
      intros [= <-]. constructor; [exact E | now apply IH].
    + intros H. inversion H as [|? y ? zs Hy Hr]; subst.
      rewrite Hy. apply IH in Hr. now rewrite Hr.
Qed.

Lemma dict_update_head_key (items acc : dict) (k : string) (v : pyval) :
  exists v' rest, dict_update ((k, v) :: acc) items = (k, v') :: rest.
Proof.
  unfold dict_update. revert acc v. induction items as [|[k' x] r IH]; simpl; intros acc v.
  - now exists v, acc.
  - destruct (String.eqb k k'); apply IH.
Qed.

(** An item stack given as a pair [(count, spec)]: the result is the
    mapping of the nested [spec] with ["count"] as its first key.  A count
    that the nested mapping brings along replaces the count of the pair;
    every other key has the value the nested mapping gives it. *)
Theorem item_stack_count_pair (count spec : pyval) (r : dict) :
  item_stack (PList [count; spec]) = Ok r ->
  exists m,
    item_stack spec = Ok m
    /\ (exists v rest, r = ("count", v) :: rest)
    /\ dict_lookup r "count"
       = Some (match last_given m "count" with Some own => own | None => count end)
    /\ (forall k, k <> "count" -> dict_lookup r k = last_given m k).
Proof.
  simpl. destruct (item_stack spec) as [m|] eqn:E; simpl; [|discriminate].
  intros [= <-]. exists m. split; [reflexivity|].
  change (dict_of (("count", count) :: m)) with (dict_update [("count", count)] m).
  split; [apply dict_update_head_key|]. split.
  - rewrite dict_lookup_update. unfold last_given.
    now destruct (dict_lookup (rev m) "count").
  - intros k Hk. rewrite dict_lookup_update. unfold last_given.
    destruct (dict_lookup (rev m) k); [reflexivity|].
    apply not_eq_sym, String.eqb_neq in Hk. cbn [dict_lookup]. now rewrite Hk.
Qed.

Lemma item_stack_count_pair_witness :
  item_stack (PList [PInt 2; PDict [("item", PStr "minecraft:stick"); ("count", PInt 5)]])
  = Ok [("count", PInt 5); ("item", PStr "minecraft:stick")]
  /\ exists m,
       item_stack (PDict [("item", PStr "minecraft:stick"); ("count", PInt 5)]) = Ok m
       /\ (exists v rest,
             [("count", PInt 5); ("item", PStr "minecraft:stick")] = ("count", v) :: rest)
       /\ dict_lookup [("count", PInt 5); ("item", PStr "minecraft:stick")] "count"
          = Some (match last_given m "count" with Some own => own | None => PInt 2 end)
       /\ (forall k, k <> "count" ->
             dict_lookup [("count", PInt 5); ("item", PStr "minecraft:stick")] k
             = last_given m k).
Proof.
  split; [reflexivity|].
  exact (item_stack_count_pair (PInt 2)
           (PDict [("item", PStr "minecraft:stick"); ("count", PInt 5)]) _ eq_refl).
Defined.

(** [item_stack_list] does not flatten: for a sequence it returns exactly
    one mapping per item, the item stack of that item, in order. *)
Theorem item_stack_list_sequence (l out : list pyval) :
  item_stack_list (PList l) = Ok out <->
  Forall2 (fun x o => exists m, item_stack x = Ok m /\ o = PDict m) l out.
Proof.
  simpl. split.
  - destruct (mapM item_stack l) as [ms|] eqn:E; simpl; [|discriminate].
    intros [= <-]. rewrite FlattenSpec.flatten_list_of_leaves
      by (apply Forall_forall; intros x Hx; apply in_map_iff in Hx;
          destruct Hx as (m & <- & _); reflexivity).
    apply mapM_Forall2 in E. induction E; simpl; constructor; eauto.
  - intros H.
    assert (E : exists ms, mapM item_stack l = Ok ms /\ out = map PDict ms).
    { induction H as [|x o r outs (m & Hm & ->) _ (ms & Hms & ->)].
      - now exists [].
      - exists (m :: ms). simpl. now rewrite Hm, Hms. }
    destruct E as (ms & -> & ->). simpl. f_equal.
    apply FlattenSpec.flatten_list_of_leaves.
    apply Forall_forall. intros x Hx. apply in_map_iff in Hx.
    destruct Hx as (m & <- & _). reflexivity.
Qed.

Lemma item_stack_list_sequence_witness :
  item_stack_list (PList [PStr "tag!forge:rods"; PList [PInt 2; PStr "minecraft:stick"]])
  = Ok [PDict [("tag", PStr "forge:rods")];
        PDict [("count", PInt 2); ("item", PStr "minecraft:stick")]]
  /\ Forall2 (fun x o => exists m, item_stack x = Ok m /\ o = PDict m)
       [PStr "tag!forge:rods"; PList [PInt 2; PStr "minecraft:stick"]]
       [PDict [("tag", PStr "forge:rods")];
        PDict [("count", PInt 2); ("item", PStr "minecraft:stick")]].
Proof.
  split; [reflexivity|].
  exact (proj1 (item_stack_list_sequence
                  [PStr "tag!forge:rods"; PList [PInt 2; PStr "minecraft:stick"]] _)
           eq_refl).
Defined.

(** [item_stack_dict] keeps the keys of a mapping, in order, and puts the
    item stack of each value in its place. *)
Theorem item_stack_dict_keys (d r : dict) (default_char : string) :
  NoDup (keys d) ->
  item_stack_dict (PDict d) default_char = Ok r ->
  keys r = keys d
  /\ Forall2 (fun kv kv' => fst kv' = fst kv
                           /\ exists m, item_stack (snd kv) = Ok m /\ snd kv' = PDict m)
       d r.
Proof.
  intros Hnd. simpl.
  destruct (mapM _ d) as [items|] eqn:E; simpl; [|discriminate].
  intros [= <-]. apply mapM_Forall2 in E.
  assert (Hk : keys items = keys d).
  { induction E as [|[k x] [k' y] d' items' Hxy _ IH]; [reflexivity|].
    simpl in *. destruct (item_stack x); simpl in Hxy; [|discriminate].
    injection Hxy as <- _. f_equal. apply IH. now inversion Hnd. }
  rewrite dict_of_nodup by now rewrite Hk.
  split; [exact Hk|]. clear Hk Hnd.
  induction E as [|[k x] [k' y] d' items' Hxy _ IH]; constructor; [|exact IH].
  simpl in *. destruct (item_stack x) as [m|]; simpl in Hxy; [|discriminate].
  injection Hxy as <- <-. split; [reflexivity | now exists m].
Qed.

Lemma item_stack_dict_keys_witness :
  (NoDup (keys [("#", PStr "tag!forge:ingots/iron"); ("S", PStr "minecraft:stick")])
   /\ item_stack_dict
        (PDict [("#", PStr "tag!forge:ingots/iron"); ("S", PStr "minecraft:stick")]) "#"
      = Ok [("#", PDict [("tag", PStr "forge:ingots/iron")]);
            ("S", PDict [("item", PStr "minecraft:stick")])])
  /\ keys [("#", PDict [("tag", PStr "forge:ingots/iron")]);
           ("S", PDict [("item", PStr "minecraft:stick")])]
     = keys [("#", PStr "tag!forge:ingots/iron"); ("S", PStr "minecraft:stick")].
Proof.
  assert (Hnd : NoDup (keys [("#", PStr "tag!forge:ingots/iron");
                             ("S", PStr "minecraft:stick")])).
  { apply StairsSpec.nodup_fixed_NoDup. reflexivity. }
  split; [split; [exact Hnd | reflexivity]|].
  exact (proj1 (item_stack_dict_keys
                  [("#", PStr "tag!forge:ingots/iron"); ("S", PStr "minecraft:stick")]
                  _ "#" Hnd eq_refl)).
Defined.

Lemma layer_key_inj (i j : nat) : layer_key i = layer_key j -> i = j.
Proof.
  unfold layer_key. intros H. simpl in H. injection H as H.
  apply DecimalNat.Unsigned.to_uint_inj.
  apply (f_equal NilEmpty.uint_of_string) in H.
  rewrite !NilEmpty.usu in H. now injection H.
Qed.

Lemma layers_keys (l : list pyval) (n : nat) :
  keys (layers n l) = map layer_key (seq n (List.length l)).
Proof.
  revert n. induction l as [|x r IH]; intros n; simpl; [reflexivity|].
  now rewrite IH.
Qed.

Lemma layers_lookup (l : list pyval) (n i : nat) :
  dict_lookup (layers n l) (layer_key (n + i)) = nth_error l i.
Proof.
  revert n i. induction l as [|x r IH]; intros n i; cbn [layers dict_lookup].
  - now destruct i.
  - destruct (String.eqb (layer_key n) (layer_key (n + i))) eqn:E.
    + apply String.eqb_eq, layer_key_inj in E.
      assert (i = 0) by lia. now subst i.
    + destruct i as [|i].
      * rewrite Nat.add_0_r, String.eqb_refl in E. discriminate E.
      * replace (n + S i) with (S n + i) by lia. apply IH.
Qed.

(** The textures of an item model given as a sequence: the [i]-th texture
    is found under the key [layer<i>], counted from 0, and there is one key
    per texture. *)
Theorem item_model_textures_layers (l : list pyval) :
  exists r,
    item_model_textures (PList l) = Ok r
    /\ List.length r = List.length l
    /\ (forall i, dict_lookup r (layer_key i) = nth_error l i).
Proof.
  exists (layers 0 l). simpl.
  rewrite dict_of_nodup.
  - split; [reflexivity|]. split.
    + rewrite <- (length_map fst (layers 0 l)).
      change (map fst (layers 0 l)) with (keys (layers 0 l)).
      now rewrite layers_keys, length_map, length_seq.
    + intros i. apply (layers_lookup l 0 i).
  - rewrite layers_keys. apply Finite.Injective_map_NoDup; [|apply seq_NoDup].
    intros i j. apply layer_key_inj.
Qed.

End ItemFacts.

(** ** Language entries, multipart parts and recipe conditions *)

Module LangFacts.
Import Py Utils Spec DictFacts.
Local Open Scope string_scope.

Lemma lang_parts_loop_pairs (nested : pyval -> dict -> result dict)
    (pairs : list (string * pyval)) (rest : list pyval) (entries : dict) :
  lang_parts_loop nested (alternating pairs ++ rest) entries
  = lang_parts_loop nested rest (dict_update entries pairs).
Proof.
  revert entries. induction pairs as [|[k v] ps IH]; intros entries; [reflexivity|].
  simpl. apply IH.
Qed.

(** A flat sequence key, value, key, value, ... gives every key the last
    value that follows it, whatever that value is (a nested sequence right
    after a key is its value, not a group to merge), and keeps the entries
    it was given for the other keys.  A key without a value at the end of
    the sequence is an [IndexError]. *)
Theorem lang_parts_pairs (pairs : list (string * pyval)) (entries : option dict) :
  (exists r,
      lang_parts (PList (alternating pairs)) entries = Ok r
      /\ forall key,
           dict_lookup r key
           = match last_given pairs key with
             | Some value => Some value
             | None => dict_lookup (match entries with Some e => e | None => [] end) key
             end)
  /\ (forall key,
        lang_parts (PList (alternating pairs ++ [PStr key])) entries = Raise IndexError).
Proof.
  unfold lang_parts. simpl lang_parts_into. split.
  - eexists. split.
    + rewrite <- (app_nil_r (alternating pairs)), lang_parts_loop_pairs. reflexivity.
    + intros key. apply dict_lookup_update.
  - intros key. now rewrite lang_parts_loop_pairs.
Qed.

Lemma lang_parts_pairs_witness :
  lang_parts (PList (alternating [("a", PStr "x"); ("b", PList [PStr "c"; PStr "d"]);
                                  ("a", PStr "y")])) None
  = Ok [("a", PStr "y"); ("b", PList [PStr "c"; PStr "d"])]
  /\ lang_parts (PList (alternating [("a", PStr "x")] ++ [PStr "b"])) None
     = Raise IndexError.
Proof.
  split; [reflexivity|].
  exact (proj2 (lang_parts_pairs [("a", PStr "x")] None) "b").
Defined.

(** Nested sequences of pairs and mappings that stand where a key is
    expected are merged into the entries as a whole, one after the other. *)
Theorem lang_parts_merges (items : list (dict + dict)) (entries : option dict) :
  lang_parts (PList (map lang_item items)) entries
  = Ok (dict_update (match entries with Some e => e | None => [] end)
          (List.concat (map lang_item_pairs items))).
Proof.
  unfold lang_parts. generalize (match entries with Some e => e | None => [] end).
  simpl lang_parts_into. induction items as [|[pairs | d] r IH]; intros e.
  - reflexivity.
  - simpl. rewrite <- (app_nil_r (alternating pairs)), lang_parts_loop_pairs.
    simpl. rewrite IH. now rewrite dict_update_app.
  - simpl. rewrite IH. now rewrite dict_update_app.
Qed.




Lemma recipe_condition_strict_shape (c r : pyval) :
  recipe_condition c true = Ok r -> r = PNone \/ exists d, r = PList [PDict d].
Proof.
  destruct c; simpl; intros H; try discriminate H; injection H as <-;
    [now left | right; eexists; reflexivity | right; eexists; reflexivity].
Qed.

(** What [recipe_condition] returns is [None], for the input [None] only,
    or a flat list.  The items of the list are mappings, except that a
    [None] among the items of the input sequence is passed on as [None]. *)
Theorem recipe_condition_output (data r : pyval) (strict : bool) :
  recipe_condition data strict = Ok r ->
  (r = PNone /\ data = PNone)
  \/ exists l, r = PList l /\ data <> PNone
               /\ Forall (fun x => is_dict x = true \/ x = PNone) l.
Proof.
  assert (each : forall items r,
             (rs <- mapM (fun c => recipe_condition c true) items ;;
              Ok (PList (flatten_list rs))) = Ok r ->
             exists l, r = PList l /\ Forall (fun x => is_dict x = true \/ x = PNone) l).
  { intros items r0 H.
    destruct (mapM _ items) as [rs|] eqn:E; simpl in H; [|discriminate].
    injection H as <-. eexists. split; [reflexivity|].
    apply ItemFacts.mapM_Forall2 in E. clear -E.
    induction E as [|c r0 cs rs Hc _ IH]; [constructor|].
    rewrite FlattenSpec.flatten_list_cons. apply Forall_app. split; [|exact IH].
    destruct (recipe_condition_strict_shape c r0 Hc) as [-> | (d & ->)]; simpl;
      (constructor; [auto | constructor]). }
  destruct data as [| | | s | l | d p | d]; simpl; intros H; try discriminate H.
  - left. now injection H as <-.
  - right. injection H as <-. eexists. split; [reflexivity|].
    split; [discriminate | constructor; [now left | constructor]].
  - right. destruct strict; simpl in H; [discriminate|].
    destruct (each l r H) as (out & -> & Hout). exists out.
    split; [reflexivity | split; [discriminate | exact Hout]].
  - right. destruct strict; simpl in H; [discriminate|].
    destruct (each [d; p] r H) as (out & -> & Hout). exists out.
    split; [reflexivity | split; [discriminate | exact Hout]].
  - right. injection H as <-. eexists. split; [reflexivity|].
    split; [discriminate | constructor; [now left | constructor]].
Qed.

Lemma recipe_condition_output_witness :
  recipe_condition (PList [PStr "forge:mod_loaded"; PNone]) false
  = Ok (PList [PDict [("type", PStr "forge:mod_loaded")]; PNone])
  /\ ((PList [PDict [("type", PStr "forge:mod_loaded")]; PNone] = PNone
       /\ PList [PStr "forge:mod_loaded"; PNone] = PNone)
      \/ exists l,
           PList [PDict [("type", PStr "forge:mod_loaded")]; PNone] = PList l
           /\ PList [PStr "forge:mod_loaded"; PNone] <> PNone
           /\ Forall (fun x => is_dict x = true \/ x = PNone) l).
Proof.
  split; [reflexivity|].
  exact (recipe_condition_output (PList [PStr "forge:mod_loaded"; PNone]) _ false
           eq_refl).
Defined.

(** A loot entry given as a mapping always comes out with the same eight
    keys, whatever keys the mapping has: a key of the input that is not
    among them is dropped.  The type defaults to ['item'], and the fields
    that are not lists are copied as they are. *)
Theorem loot_entry_list_mapping_keys (d : dict) (out : list pyval) :
  loot_entry_list (PDict d) = Ok out ->
  exists m,
    out = [PDict m]
    /\ keys m = ["type"; "conditions"; "name"; "children"; "expand"; "functions";
                 "weight"; "quality"]
    /\ (dict_lookup d "type" = None -> dict_lookup m "type" = Some (PStr "item"))
    /\ (forall k v,
          In k ["type"; "name"; "children"; "expand"; "weight"; "quality"] ->
          dict_lookup d k = Some v -> dict_lookup m k = Some v).
Proof.
  intros H. rewrite AbsentFieldSpec.loot_entry_list_mapping in H.
  destruct (dict_get d "type" (PStr "item") None) as [type|] eqn:E1;
    simpl in H; [|discriminate].
  destruct (dict_get d "conditions" PNone (Some (listed loot_condition_list)))
    as [conditions|] eqn:E2; simpl in H; [|discriminate].
  destruct (dict_get d "name" PNone None) as [name|] eqn:E3;
    simpl in H; [|discriminate].
  destruct (dict_get d "children" PNone None) as [children|] eqn:E4;
    simpl in H; [|discriminate].
  destruct (dict_get d "expand" PNone None) as [expand|] eqn:E5;
    simpl in H; [|discriminate].
  destruct (dict_get d "functions" PNone (Some (listed loot_function_list)))
    as [functions|] eqn:E6; simpl in H; [|discriminate].
  destruct (dict_get d "weight" PNone None) as [weight|] eqn:E7;
    simpl in H; [|discriminate].
  destruct (dict_get d "quality" PNone None) as [quality|] eqn:E8;
    simpl in H; [|discriminate].
  injection H as <-. eexists. split; [reflexivity|]. split; [reflexivity|].
  unfold dict_get in E1, E3, E4, E5, E7, E8. split.
  - intros Hn. rewrite Hn in E1. now injection E1 as <-.
  - intros k v Hin Hk. simpl in Hin.
    repeat (destruct Hin as [<- | Hin];
            [rewrite Hk in *;
             repeat match goal with E : Ok _ = Ok _ |- _ => injection E as <- end;
             reflexivity|]).
    contradiction.
Qed.

Lemma loot_entry_list_mapping_keys_witness :
  loot_entry_list (PDict [("name", PStr "minecraft:dirt"); ("comment", PStr "x")])
  = Ok [PDict [("type", PStr "item"); ("conditions", PNone);
               ("name", PStr "minecraft:dirt"); ("children", PNone); ("expand", PNone);
               ("functions", PNone); ("weight", PNone); ("quality", PNone)]]
  /\ exists m,
       [PDict [("type", PStr "item"); ("conditions", PNone);
               ("name", PStr "minecraft:dirt"); ("children", PNone); ("expand", PNone);
               ("functions", PNone); ("weight", PNone); ("quality", PNone)]] = [PDict m]
       /\ keys m = ["type"; "conditions"; "name"; "children"; "expand"; "functions";
                    "weight"; "quality"]
       /\ (dict_lookup [("name", PStr "minecraft:dirt"); ("comment", PStr "x")] "type"
           = None -> dict_lookup m "type" = Some (PStr "item"))
       /\ (forall k v,
             In k ["type"; "name"; "children"; "expand"; "weight"; "quality"] ->
             dict_lookup [("name", PStr "minecraft:dirt"); ("comment", PStr "x")] k
             = Some v -> dict_lookup m k = Some v).
Proof.
  split; [reflexivity|].
  exact (loot_entry_list_mapping_keys
           [("name", PStr "minecraft:dirt"); ("comment", PStr "x")] _ eq_refl).
Defined.

End LangFacts.
